(** * Ethiopia financial-inclusion dashboard: the data pipeline of
      [dashboard/app.py]

    The script loads three CSV tables, splits the unified table into
    observations and events, derives a [year] column, and feeds a handful
    of views: the account-ownership metric of the Overview page, the
    filtered and averaged trend chart of the Trends page, and the CSV
    downloads.  This file embeds those steps as functions over lists of
    rows and proves what the specification says about them.

    Conventions of the embedding.
    - A DataFrame is the list of its rows, in frame order.
    - A text cell read from CSV is [option string]: [None] is pandas' NaN
      of an empty cell.  Comparisons of NaN with a string are false, as
      in pandas.
    - [value_numeric] is a float64 column; a finite cell is the rational
      number it stands for ([Q]) and NaN is [None].  What float64
      arithmetic makes of such cells, with its rounding, is not computed
      here: the mean is a field of the interface [Externals].
    - [year] is what [.dt.year] gives: an integer, or NaN ([None]) on a
      NaT timestamp. *)

From Stdlib Require Import List String Ascii ZArith QArith Qreduction Bool Lia.
From Stdlib Require Import Permutation Sorted.
Import ListNotations.

Open Scope string_scope.
Open Scope list_scope.

(** ** Data model *)

(** One row of [ethiopia_fi_unified_data_enriched.csv], restricted to the
    columns the script consumes. *)
Record Raw : Type := mkRaw {
  record_type : option string;
  observation_date : option string;
  indicator_code : option string;
  pillar : option string;
  gender : option string;
  unit : option string;
  value_numeric : option Q
}.

(** A row of the frames built by [process_observations] and
    [process_events]: the source columns and the derived [year]. *)
Record Row : Type := mkRow {
  raw : Raw;
  year : option Z
}.

(** [series == literal] on a text column: NaN is equal to nothing. *)
Definition cell_eqb (c : option string) (s : string) : bool :=
  match c with
  | Some v => String.eqb v s
  | None => false
  end.

(** [series.isin(values)] for a list of strings. *)
Definition isin (c : option string) (values : list string) : bool :=
  match c with
  | Some v => existsb (String.eqb v) values
  | None => false
  end.

(** [series >= bound] and [series <= bound] on the year column; a NaN
    year compares false both ways. *)
Definition year_ge (y : option Z) (bound : Z) : bool :=
  match y with
  | Some v => (bound <=? v)%Z
  | None => false
  end.

Definition year_le (y : option Z) (bound : Z) : bool :=
  match y with
  | Some v => (v <=? bound)%Z
  | None => false
  end.

(** ** What the script takes from pandas and the file system

    The date conversion [pd.to_datetime(..., format='mixed',
    errors='coerce')], the float64 arithmetic of [mean], the CSV writer
    [DataFrame.to_csv(index=False)], the exceptions of [pd.read_csv] and
    the forecast and impact tables (whose columns the script never reads)
    are not code of this repository.  They are the fields of the
    interface [Externals], with the few facts about them that the
    statements below rely on. *)

Record Timestamp : Type := mkTimestamp {
  ts_year : Z;
  ts_month : Z;
  ts_day : Z
}.

(** What [errors='coerce'] makes of one cell: a string that the parser
    does not read counts as an empty cell. *)
Definition coerce_cell (parse : string -> option Timestamp)
    (cell : option string) : option string :=
  match cell with
  | Some s => match parse s with
              | Some _ => cell
              | None => None
              end
  | None => None
  end.

Definition Qsum (qs : list Q) : Q := fold_right Qplus 0%Q qs.

(** The arithmetic mean of a list of numbers, as a fraction in lowest
    terms.  This is the mathematical mean, not what float64 arithmetic
    gives: the two agree where no operation rounds. *)
Definition exact_mean (qs : list Q) : Q :=
  Qred (Qsum qs / inject_Z (Z.of_nat (List.length qs))).

(** A sufficient test for float64 arithmetic to make no rounding on a
    list, in whatever order the additions are made: the values are
    integers whose absolute values add up to less than 2^53, there are
    fewer than 2^53 of them, and their mean is a fraction whose
    denominator is a power of two.  Every partial sum is then an integer
    below 2^53 and the quotient has at most 53 significant bits. *)
Definition is_integer (q : Q) : bool := Pos.eqb (Qden (Qred q)) 1.

Definition abs_sum (qs : list Q) : Z :=
  fold_right (fun q acc => (Z.abs (Qnum (Qred q)) + acc)%Z) 0%Z qs.

Fixpoint is_power_of_two (p : positive) : bool :=
  match p with
  | xH => true
  | xO p' => is_power_of_two p'
  | xI _ => false
  end.

Definition no_rounding (qs : list Q) : bool :=
  forallb is_integer qs
  && (abs_sum qs <? 2 ^ 53)%Z
  && (Z.of_nat (List.length qs) <? 2 ^ 53)%Z
  && is_power_of_two (Qden (exact_mean qs)).

Class Externals : Type := {
  Exn : Type;
  Forecast : Type;
  Impact : Type;
  CSV : Type;
  (** the parser on one date string; [None] is the parse error *)
  parse_mixed : string -> option Timestamp;
  (** the exception, if there is one, of
      [pd.to_datetime(column, format='mixed', errors='coerce').dt.year]
      on a whole column: the call converts the column as one and can
      raise although each cell is read or coerced, on time zones that do
      not agree for one *)
  datetime_error : list (option string) -> option Exn;
  (** an empty column converts *)
  datetime_error_empty : datetime_error [] = None;
  (** a cell the parser does not read weighs as an empty cell *)
  datetime_error_coerce :
    forall column,
      datetime_error (map (coerce_cell parse_mixed) column)
      = datetime_error column;
  (** the float64 mean of a non-empty list of numbers, sum over count;
      [None] when the result is not a finite number *)
  float_mean : list Q -> option Q;
  (** it is the arithmetic mean where nothing is rounded *)
  float_mean_exact :
    forall qs, qs <> [] -> no_rounding qs = true ->
               float_mean qs = Some (exact_mean qs);
  to_csv : list Row -> CSV;
  forecast_to_csv : Forecast -> CSV;
  impact_to_csv : Impact -> CSV
}.

(** The outcome of a call that can raise. *)
Inductive result `{Externals} (A : Type) : Type :=
| Ok (a : A)
| Raise (e : Exn).

Arguments Ok {_ _} a.
Arguments Raise {_ _} e.

(** ** Trends page: the row filter (app.py, lines 305-310)

    The boolean mask of [filtered_obs].  The script writes the unit
    literal ['%'] in the mask; [filtered_obs_unit] takes it as an argument
    and [filtered_obs] is the instance the script evaluates. *)
Definition trend_mask (u : string) (selected_pillars : list string)
    (year_range : Z * Z) (r : Row) : bool :=
  isin (pillar (raw r)) selected_pillars
  && year_ge (year r) (fst year_range)
  && year_le (year r) (snd year_range)
  && cell_eqb (unit (raw r)) u.

Definition filtered_obs_unit (u : string) (observations : list Row)
    (selected_pillars : list string) (year_range : Z * Z) : list Row :=
  filter (trend_mask u selected_pillars year_range) observations.

Definition filtered_obs : list Row -> list string -> Z * Z -> list Row :=
  filtered_obs_unit "%".

(** ** Trends page: grouping and averaging (app.py, line 314)

    [filtered_obs.groupby(['indicator_code', 'year', 'pillar'])
       ['value_numeric'].mean().reset_index()].
    pandas' defaults apply: [dropna=True] leaves a row with NaN in one of
    the three key columns out of every group, [sort=True] orders the
    result by the key triple, and [mean] skips NaN values and is NaN for a
    group in which nothing is left. *)

Definition Key : Type := string * Z * string.

Definition group_key (r : Row) : option Key :=
  match indicator_code (raw r), year r, pillar (raw r) with
  | Some i, Some y, Some p => Some (i, y, p)
  | _, _, _ => None
  end.

(** Lexicographic order on key triples: strings by code unit, years as
    integers. *)
Definition key_compare (a b : Key) : comparison :=
  let '(i1, y1, p1) := a in
  let '(i2, y2, p2) := b in
  match String.compare i1 i2 with
  | Eq => match Z.compare y1 y2 with
          | Eq => String.compare p1 p2
          | c => c
          end
  | c => c
  end.

Definition key_eqb (a b : Key) : bool :=
  match key_compare a b with
  | Eq => true
  | _ => false
  end.

Definition key_lt (a b : Key) : Prop := key_compare a b = Lt.

(** The distinct keys, ascending. *)
Fixpoint insert_key (k : Key) (ks : list Key) : list Key :=
  match ks with
  | [] => [k]
  | k' :: rest =>
      match key_compare k k' with
      | Lt => k :: ks
      | Eq => ks
      | Gt => k' :: insert_key k rest
      end
  end.

Fixpoint group_keys (rows : list Row) : list Key :=
  match rows with
  | [] => []
  | r :: rest =>
      match group_key r with
      | Some k => insert_key k (group_keys rest)
      | None => group_keys rest
      end
  end.

Definition in_group (k : Key) (r : Row) : bool :=
  match group_key r with
  | Some k' => key_eqb k k'
  | None => false
  end.

(** The [value_numeric] cells of the rows of one group, in frame order. *)
Definition group_values (k : Key) (rows : list Row) : list (option Q) :=
  map (fun r => value_numeric (raw r)) (filter (in_group k) rows).

(** The values that are not NaN. *)
Fixpoint non_absent (vs : list (option Q)) : list Q :=
  match vs with
  | [] => []
  | Some q :: rest => q :: non_absent rest
  | None :: rest => non_absent rest
  end.

(** [Series.mean()] with [skipna=True]: NaN when no value is left,
    otherwise the float64 mean of the values that are not NaN, taken in
    frame order. *)
Definition mean `{Externals} (vs : list (option Q)) : option Q :=
  match non_absent vs with
  | [] => None
  | qs => float_mean qs
  end.

(** One output row: the key columns and the [value_numeric] mean. *)
Definition trend_data `{Externals} (filtered : list Row)
    : list (Key * option Q) :=
  map (fun k => (k, mean (group_values k filtered))) (group_keys filtered).

(** The contract of the specification, [filterAndAggregate]: the filter
    followed by the aggregation. *)
Definition filterAndAggregate `{Externals} (observations : list Row)
    (pillars : list string) (year_range : Z * Z) (u : string)
    : list (Key * option Q) :=
  trend_data (filtered_obs_unit u observations pillars year_range).

(** ** Overview page: the account-ownership metric (app.py, lines 128-133) *)

(** Order of [sort_values('year')]: ascending, NaN last
    ([na_position='last']). *)
Definition year_leb (a b : option Z) : bool :=
  match a, b with
  | Some x, Some y => (x <=? y)%Z
  | _, None => true
  | None, Some _ => false
  end.

(** [sort_values('year')].  Rows with a year come first in ascending
    order, rows with a NaN year follow in frame order.  Among rows of
    equal year the default sort kind of numpy promises no order; the model
    keeps them in frame order.  The statements below that describe the
    order use only that the result is ascending and a permutation. *)
Fixpoint insert_row (r : Row) (l : list Row) : list Row :=
  match l with
  | [] => [r]
  | h :: t =>
      if year_leb (year r) (year h) then r :: l else h :: insert_row r t
  end.

Fixpoint sort_values_year (l : list Row) : list Row :=
  match l with
  | [] => []
  | r :: rest => insert_row r (sort_values_year rest)
  end.

(** Being in ascending order of a nullable integer key, NaN last. *)
Definition ordered_by {A : Type} (key : A -> option Z) (a b : A) : Prop :=
  year_leb (key a) (key b) = true.

Definition year_order : Row -> Row -> Prop := ordered_by year.

Definition selector_mask (code g : string) (r : Row) : bool :=
  cell_eqb (indicator_code (raw r)) code && cell_eqb (gender (raw r)) g.

(** The frame [observations[(indicator_code == code) & (gender == g)]
    .sort_values('year')]. *)
Definition select_sorted (code g : string) (observations : list Row)
    : list Row :=
  sort_values_year (filter (selector_mask code g) observations).

Definition acc_ownership : list Row -> list Row :=
  select_sorted "ACC_OWNERSHIP" "all".

(** [series.iloc[-k]] for [k >= 1]; [None] is the IndexError of a series
    shorter than [k]. *)
Definition iloc_neg {A : Type} (k : nat) (l : list A) : option A :=
  nth_error (rev l) (k - 1).

(** The selector: the last two [value_numeric] cells of the sorted frame,
    each guarded by the length test of the script.  The outer [option] is
    the selector's absence (the guard failed); the inner one is the cell,
    which can itself be NaN. *)
Definition latestAndPrevious (observations : list Row) (code g : string)
    : option (option Q) * option (option Q) :=
  let frame := select_sorted code g observations in
  let column := map (fun r => value_numeric (raw r)) frame in
  (if (0 <? List.length frame)%nat then iloc_neg 1 column else None,
   if (1 <? List.length frame)%nat then iloc_neg 2 column else None).

Definition or_default (d : Q) (x : option (option Q)) : option Q :=
  match x with
  | Some v => v
  | None => Some d
  end.

Definition current_acc (observations : list Row) : option Q :=
  or_default 49 (fst (latestAndPrevious observations "ACC_OWNERSHIP" "all")).

Definition prev_acc (observations : list Row) : option Q :=
  or_default 46 (snd (latestAndPrevious observations "ACC_OWNERSHIP" "all")).


(** ** Partitioner (app.py, lines 69-81) *)

(** [pd.to_datetime(column, format='mixed', errors='coerce')] on one
    cell: a NaN cell and a string the parser rejects both become NaT
    ([None]). *)
Definition to_datetime `{Externals} (cell : option string) : option Timestamp :=
  match cell with
  | Some s => parse_mixed s
  | None => None
  end.

(** [.dt.year]: NaN on NaT. *)
Definition dt_year (t : option Timestamp) : option Z :=
  option_map ts_year t.

Definition with_year `{Externals} (r : Raw) : Row :=
  mkRow r (dt_year (to_datetime (observation_date r))).

Definition is_observation (r : Raw) : bool :=
  cell_eqb (record_type r) "observation".

Definition is_event (r : Raw) : bool :=
  cell_eqb (record_type r) "event".

(** The frame each function returns, when it returns: the rows of its
    record type, each with its year. *)
Definition process_observations `{Externals} (main_data : list Raw) : list Row :=
  map with_year (filter is_observation main_data).

Definition process_events `{Externals} (main_data : list Raw) : list Row :=
  map with_year (filter is_event main_data).

(** The calls as the [try] block of lines 84-91 sees them: the date
    conversion works on the whole [observation_date] column of the
    selected rows and can raise; when it does not, the frame returned is
    the one above. *)
Definition year_column_error `{Externals} (frame : list Raw) : option Exn :=
  datetime_error (map observation_date frame).

Definition process_observations_run `{Externals} (main_data : list Raw)
    : result (list Row) :=
  match year_column_error (filter is_observation main_data) with
  | Some e => Raise e
  | None => Ok (process_observations main_data)
  end.

Definition process_events_run `{Externals} (main_data : list Raw)
    : result (list Row) :=
  match year_column_error (filter is_event main_data) with
  | Some e => Raise e
  | None => Ok (process_events main_data)
  end.

(** *** The same two functions over a store of frames

    [main_data[mask]] builds a new frame, [.copy()] another one, and
    [obs['year'] = ...] assigns a column of that last frame in place.  A
    frame object is a cell of the store, addressed by its position; the
    [year] column is absent until it is assigned. *)
Record Frame : Type := mkFrame {
  frame_rows : list Raw;
  frame_year : option (list (option Z))
}.

Definition Store : Type := list Frame.

Definition alloc (f : Frame) (st : Store) : nat * Store :=
  (List.length st, st ++ [f]).

(** [frame[mask]]: the selected rows, with their cell of each column. *)
Definition select_frame (mask : Raw -> bool) (f : Frame) : Frame :=
  mkFrame (filter mask (frame_rows f))
          (option_map
             (fun ys => map snd (filter (fun p => mask (fst p))
                                        (combine (frame_rows f) ys)))
             (frame_year f)).

Definition getitem_mask (mask : Raw -> bool) (src : nat) (st : Store)
    : option (nat * Store) :=
  match nth_error st src with
  | Some f => Some (alloc (select_frame mask f) st)
  | None => None
  end.

Definition copy (src : nat) (st : Store) : option (nat * Store) :=
  match nth_error st src with
  | Some f => Some (alloc f st)
  | None => None
  end.

Fixpoint update_cell (dst : nat) (f : Frame) (st : Store) : Store :=
  match st, dst with
  | [], _ => []
  | _ :: rest, O => f :: rest
  | g :: rest, S n => g :: update_cell n f rest
  end.

(** [frame['year'] = to_datetime(frame['observation_date']).dt.year],
    in place. *)
Definition setitem_year `{Externals} (dst : nat) (st : Store) : option Store :=
  match nth_error st dst with
  | Some f =>
      let column :=
        map (fun r => dt_year (to_datetime (observation_date r)))
            (frame_rows f) in
      Some (update_cell dst (mkFrame (frame_rows f) (Some column)) st)
  | None => None
  end.

Definition process_st `{Externals} (mask : Raw -> bool) (main_data : nat)
    (st : Store) : option (nat * Store) :=
  match getitem_mask mask main_data st with
  | Some (selected, st1) =>
      match copy selected st1 with
      | Some (obs, st2) =>
          match setitem_year obs st2 with
          | Some st3 => Some (obs, st3)
          | None => None
          end
      | None => None
      end
  | None => None
  end.

Definition process_observations_st `{Externals} : nat -> Store -> option (nat * Store) :=
  process_st is_observation.

Definition process_events_st `{Externals} : nat -> Store -> option (nat * Store) :=
  process_st is_event.

(** The rows of a frame whose [year] column has been assigned. *)
Definition rows_of_frame (f : Frame) : option (list Row) :=
  match frame_year f with
  | Some ys => Some (map (fun p => mkRow (fst p) (snd p))
                         (combine (frame_rows f) ys))
  | None => None
  end.

(** The rows of the frame at an address, once its [year] column exists. *)
Definition rows_at (st : Store) (a : nat) : option (list Row) :=
  match nth_error st a with
  | Some f => rows_of_frame f
  | None => None
  end.

(** ** Loader (app.py, lines 53-67 and 84-91) *)

(** What the three [pd.read_csv] calls give on the files of one run. *)
Record Files `{Externals} : Type := mkFiles {
  main_csv : result (list Raw);
  forecast_csv : result Forecast;
  impact_csv : result Impact
}.

Arguments mkFiles {_} _ _ _.

Definition load_data `{Externals} (fs : Files)
    : result (list Raw * Forecast * Impact) :=
  match main_csv fs with
  | Raise e => Raise e
  | Ok main =>
      match forecast_csv fs with
      | Raise e => Raise e
      | Ok forecast =>
          match impact_csv fs with
          | Raise e => Raise e
          | Ok impact => Ok (main, forecast, impact)
          end
      end
  end.

(** The module-level names bound by the [try] block. *)
Record Session `{Externals} : Type := mkSession {
  main_data : list Raw;
  forecast_data : Forecast;
  impact_matrix : Impact;
  observations : list Row;
  events : list Row
}.

Arguments mkSession {_} _ _ _ _ _.

(** The [try] block: the three reads, then the two frames. *)
Definition process_tables `{Externals}
    (tables : list Raw * Forecast * Impact) : result Session :=
  let '(main, forecast, impact) := tables in
  match process_observations_run main with
  | Raise e => Raise e
  | Ok obs =>
      match process_events_run main with
      | Raise e => Raise e
      | Ok ev => Ok (mkSession main forecast impact obs ev)
      end
  end.

Definition load_session `{Externals} (fs : Files) : result Session :=
  match load_data fs with
  | Ok tables => process_tables tables
  | Raise e => Raise e
  end.

Definition data_loaded `{Externals} (fs : Files) : bool :=
  match load_session fs with
  | Ok _ => true
  | Raise _ => false
  end.

(** ** The pages *)

Inductive Page : Type := Overview | Trends | Forecasts | Projections.

(** The sidebar inputs of one run. *)
Record Controls : Type := mkControls {
  page : Page;
  year_range : Z * Z;
  selected_pillars : list string
}.

(** What a run puts on the page.  [literal_content] stands for the
    metrics, charts and texts a page builds from literals of the script
    alone. *)
Inductive Widget `{Externals} : Type :=
| st_error (e : Exn)
| sidebar
| main_header (p : Page)
| footer
| account_metric (current previous : option Q)
| data_summary (records n_observations n_events : nat)
| literal_content (p : Page)
| trend_chart (data : list (Key * option Q))
| st_info
| download_button (file_name : string) (data : CSV).

(** Lines 305-332: the chart when the filter retains a row, the
    explanatory message otherwise. *)
Definition trends_section `{Externals} (obs : list Row)
    (pillars : list string) (range : Z * Z) : Widget :=
  let filtered := filtered_obs obs pillars range in
  if (0 <? List.length filtered)%nat
  then trend_chart (trend_data filtered)
  else st_info.

(** Lines 442-448. *)
Definition observations_download `{Externals} (s : Session) (c : Controls)
    : Widget :=
  download_button "ethiopia_fi_observations.csv" (to_csv (observations s)).

Definition page_body `{Externals} (s : Session) (c : Controls) : list Widget :=
  match page c with
  | Overview =>
      [account_metric (current_acc (observations s))
                      (prev_acc (observations s));
       literal_content Overview;
       data_summary (List.length (main_data s))
                    (List.length (observations s))
                    (List.length (events s))]
  | Trends =>
      [trends_section (observations s) (selected_pillars c) (year_range c);
       literal_content Trends;
       observations_download s c]
  | Forecasts =>
      [literal_content Forecasts;
       download_button "ethiopia_fi_forecasts_2025_2027.csv"
                       (forecast_to_csv (forecast_data s))]
  | Projections =>
      [literal_content Projections;
       download_button "ethiopia_fi_forecasts.csv"
                       (forecast_to_csv (forecast_data s));
       download_button "event_impact_matrix.csv"
                       (impact_to_csv (impact_matrix s))]
  end.

(** One run of the script. *)
Definition script `{Externals} (fs : Files) (c : Controls) : list Widget :=
  match load_session fs with
  | Ok s => [sidebar; main_header (page c)] ++ page_body s c ++ [footer]
  | Raise e => [st_error e; sidebar; main_header (page c); footer]
  end.

(** The download buttons of a page, as (file name, content). *)
Fixpoint downloads `{Externals} (ws : list Widget) : list (string * CSV) :=
  match ws with
  | [] => []
  | download_button name data :: rest => (name, data) :: downloads rest
  | _ :: rest => downloads rest
  end.

(** ** Example tables *)

Definition obs_row (code p g u : string) (y : option Z) (v : option Q) : Row :=
  mkRow (mkRaw (Some "observation") None (Some code) (Some p) (Some g)
               (Some u) v) y.

(** Two observations of one indicator in one year, both without a
    value. *)
Definition nan_group_table : list Row :=
  [obs_row "ACC_MM_ACCOUNT" "ACCESS" "male" "%" (Some 2021%Z) None;
   obs_row "ACC_MM_ACCOUNT" "ACCESS" "female" "%" (Some 2021%Z) None].

(** The group of the specification's example: 10.0, 20.0 and a NaN. *)
Definition mixed_group_table : list Row :=
  [obs_row "USG_DIGITAL_PAYMENT" "USAGE" "male" "%" (Some 2024%Z) (Some 10%Q);
   obs_row "USG_DIGITAL_PAYMENT" "USAGE" "female" "%" (Some 2024%Z) (Some 20%Q);
   obs_row "USG_DIGITAL_PAYMENT" "USAGE" "all" "%" (Some 2024%Z) None].

(** Account ownership across the five survey rounds, among rows of other
    indicators and genders, in no particular frame order. *)
Definition ownership_table : list Row :=
  [obs_row "ACC_OWNERSHIP" "ACCESS" "all" "%" (Some 2021%Z) (Some 46%Q);
   obs_row "ACC_OWNERSHIP" "GENDER" "male" "%" (Some 2024%Z) (Some 58%Q);
   obs_row "ACC_OWNERSHIP" "ACCESS" "all" "%" (Some 2011%Z) (Some 14%Q);
   obs_row "USG_DIGITAL_PAYMENT" "USAGE" "all" "%" (Some 2024%Z) (Some 35%Q);
   obs_row "ACC_OWNERSHIP" "ACCESS" "all" "%" (Some 2024%Z) (Some 49%Q);
   obs_row "ACC_OWNERSHIP" "ACCESS" "all" "%" (Some 2014%Z) (Some 22%Q);
   obs_row "ACC_OWNERSHIP" "ACCESS" "all" "%" (Some 2017%Z) (Some 35%Q)].

(** The (year, value) pairs of the specification's example. *)
Definition ownership_rounds : list (option Z * option Q) :=
  [(Some 2011%Z, Some 14%Q); (Some 2014%Z, Some 22%Q);
   (Some 2017%Z, Some 35%Q); (Some 2021%Z, Some 46%Q);
   (Some 2024%Z, Some 49%Q)].

Definition year_and_value (r : Row) : option Z * option Q :=
  (year r, value_numeric (raw r)).

(** An account-ownership row whose date no format reads: its year is
    NaN. *)
Definition undated_row : Row :=
  mkRow (mkRaw (Some "observation") (Some "mid-year round")
               (Some "ACC_OWNERSHIP") (Some "ACCESS") (Some "all")
               (Some "%") (Some 7%Q))
        None.

Definition undated_table : list Row := undated_row :: ownership_table.

(** A small library side for the examples: a parser that reads two ISO
    dates, and exports that are the exported table itself. *)
Inductive Export : Type :=
| rows_export (t : list Row)
| forecast_export (t : list (Z * Q))
| impact_export (t : list (string * string * Q)).

Definition two_dates (s : string) : option Timestamp :=
  if String.eqb s "2021-12-31" then Some (mkTimestamp 2021 12 31)
  else if String.eqb s "2024-11-29" then Some (mkTimestamp 2024 11 29)
  else None.

(** A third date, with a time zone.  On the example library side the
    conversion of a column raises when this date stands in the column
    next to a date without a zone. *)
Definition zoned_date : string := "2024-11-29T09:00:00+03:00".

Definition example_parser (s : string) : option Timestamp :=
  if String.eqb s zoned_date then Some (mkTimestamp 2024 11 29)
  else two_dates s.

Definition mixed_zones_error : string := "Mixed timezones detected".

Definition mixed_zones (column : list (option string)) : option string :=
  if existsb (fun c => cell_eqb c zoned_date) column
     && existsb (fun c => cell_eqb c "2021-12-31" || cell_eqb c "2024-11-29")
                column
  then Some mixed_zones_error
  else None.

Definition example_io : Externals.
Proof.
  refine {|
    Exn := string;
    Forecast := list (Z * Q);
    Impact := list (string * string * Q);
    CSV := Export;
    parse_mixed := example_parser;
    datetime_error := mixed_zones;
    datetime_error_empty := eq_refl;
    datetime_error_coerce := _;
    float_mean := fun qs => Some (exact_mean qs);
    float_mean_exact := fun qs _ _ => eq_refl;
    to_csv := rows_export;
    forecast_to_csv := forecast_export;
    impact_to_csv := impact_export
  |}.
  assert (Hcell : forall s c,
            example_parser s <> None ->
            cell_eqb (coerce_cell example_parser c) s = cell_eqb c s).
  { intros s [x|] Hs; simpl; [|reflexivity].
    destruct (example_parser x) eqn:Hx; [reflexivity|]. simpl.
    destruct (String.eqb_spec x s) as [->|_]; [contradiction | reflexivity]. }
  intro column. unfold mixed_zones.
  replace (existsb (fun c => cell_eqb c zoned_date)
                   (map (coerce_cell example_parser) column))
    with (existsb (fun c => cell_eqb c zoned_date) column).
  - replace (existsb (fun c => cell_eqb c "2021-12-31"
                               || cell_eqb c "2024-11-29")
                     (map (coerce_cell example_parser) column))
      with (existsb (fun c => cell_eqb c "2021-12-31"
                              || cell_eqb c "2024-11-29") column);
      [reflexivity|].
    induction column as [|c rest IH]; simpl; [reflexivity|].
    rewrite !Hcell, IH by discriminate. reflexivity.
  - induction column as [|c rest IH]; simpl; [reflexivity|].
    rewrite Hcell, IH by discriminate. reflexivity.
Defined.

(** A unified table: an ACCESS observation of 2024, a GENDER observation
    of 2021, an observation with an unreadable date, and an event. *)
Definition access_2024 : Raw :=
  mkRaw (Some "observation") (Some "2024-11-29") (Some "ACC_OWNERSHIP")
        (Some "ACCESS") (Some "all") (Some "%") (Some 49%Q).

Definition gender_2021 : Raw :=
  mkRaw (Some "observation") (Some "2021-12-31") (Some "GEN_GAP_ACC")
        (Some "GENDER") (Some "all") (Some "%") (Some 20%Q).

Definition unreadable_date : Raw :=
  mkRaw (Some "observation") (Some "mid-year round") (Some "ACC_OWNERSHIP")
        (Some "ACCESS") (Some "all") (Some "%") (Some 7%Q).

Definition telebirr_launch : Raw :=
  mkRaw (Some "event") (Some "2021-12-31") None None None None None.

Definition example_main : list Raw :=
  [access_2024; telebirr_launch; unreadable_date; gender_2021].

Definition example_forecast : @Forecast example_io := [(2025%Z, 61.8%Q)].

Definition example_impact : @Impact example_io :=
  [("telebirr_launch", "ACC_OWNERSHIP", 0.15%Q)].

Definition example_files : @Files example_io :=
  mkFiles (Ok example_main) (Ok example_forecast) (Ok example_impact).

(** The main file is missing; the other two are read. *)
Definition file_not_found : @Exn example_io := "No such file or directory".

Definition missing_main : @Files example_io :=
  mkFiles (Raise file_not_found) (Ok example_forecast) (Ok example_impact).

(** ** The groups behind the aggregation

    What [groupby] holds before [mean] is taken: whether a row has a key,
    and the rows of each group ([GroupBy.groups]), in key order. *)
Definition has_key (r : Row) : bool :=
  match group_key r with
  | Some _ => true
  | None => false
  end.

Definition groups (rows : list Row) : list (list Row) :=
  map (fun k => filter (in_group k) rows) (group_keys rows).

(** ** Overview page: the data summary (app.py, lines 259-276) *)

(** [main_data['record_type'].value_counts()]: one entry per distinct
    value of the column, NaN left out, with the number of its rows, by
    decreasing count.  Values are taken in order of first appearance and
    sorted on their counts; among values of equal count the order pandas
    gives is not fixed, the model keeps the order of first appearance. *)
Definition count_value (v : string) (column : list (option string)) : nat :=
  List.length (filter (fun c => cell_eqb c v) column).

Fixpoint unique_values (column : list (option string)) : list string :=
  match column with
  | [] => []
  | Some v :: rest =>
      v :: filter (fun x => negb (String.eqb x v)) (unique_values rest)
  | None :: rest => unique_values rest
  end.

Fixpoint insert_count (e : string * nat) (l : list (string * nat))
    : list (string * nat) :=
  match l with
  | [] => [e]
  | h :: t =>
      if (snd h <=? snd e)%nat then e :: l else h :: insert_count e t
  end.

Fixpoint sort_counts (l : list (string * nat)) : list (string * nat) :=
  match l with
  | [] => []
  | e :: rest => insert_count e (sort_counts rest)
  end.

Definition value_counts (column : list (option string))
    : list (string * nat) :=
  sort_counts (map (fun v => (v, count_value v column))
                   (unique_values column)).

Definition record_counts (main_data : list Raw) : list (string * nat) :=
  value_counts (map record_type main_data).

(** [events[['indicator', 'year']].dropna()
      .sort_values('year', ascending=False).head(8)].
    The input is the two-column frame [events[['indicator', 'year']]];
    [indicator] is a column of the file that no other step reads. *)
Definition complete (p : option string * option Z) : bool :=
  match p with
  | (Some _, Some _) => true
  | _ => false
  end.

Definition dropna (frame : list (option string * option Z))
    : list (option string * option Z) :=
  filter complete frame.

(** Descending order of the year, NaN last. *)
Definition year_desc_leb (a b : option Z) : bool :=
  match a, b with
  | Some x, Some y => (y <=? x)%Z
  | _, None => true
  | None, Some _ => false
  end.

Fixpoint insert_desc (e : option string * option Z)
    (l : list (option string * option Z))
    : list (option string * option Z) :=
  match l with
  | [] => [e]
  | h :: t =>
      if year_desc_leb (snd e) (snd h) then e :: l else h :: insert_desc e t
  end.

Fixpoint sort_values_year_desc (l : list (option string * option Z))
    : list (option string * option Z) :=
  match l with
  | [] => []
  | e :: rest => insert_desc e (sort_values_year_desc rest)
  end.

Definition events_summary (frame : list (option string * option Z))
    : list (option string * option Z) :=
  firstn 8 (sort_values_year_desc (dropna frame)).

(** ** The loader under [@st.cache_data] (app.py, lines 53 and 84-91)

    [st.cache_data] keeps the value of the first call of [load_data] that
    returns, for the life of the process, and hands it out on every later
    call without running the function; a call that raises stores
    nothing.  [load_data] takes no argument, so there is one cache entry.
    [process_observations] and [process_events] are cached too, on their
    argument; they are functions of it, so that cache cannot be seen. *)
Definition Tables `{Externals} : Type := (list Raw * Forecast * Impact)%type.

Definition load_data_cached `{Externals} (cache : option Tables) (fs : Files)
    : result Tables * option Tables :=
  match cache with
  | Some tables => (Ok tables, cache)
  | None =>
      match load_data fs with
      | Ok tables => (Ok tables, Some tables)
      | Raise e => (Raise e, None)
      end
  end.

(** The files that hold given tables. *)
Definition files_of `{Externals} (tables : Tables) : Files :=
  let '(main, forecast, impact) := tables in
  mkFiles (Ok main) (Ok forecast) (Ok impact).

(** One run of the script in a process whose cache is [cache]: what is
    shown, and the cache left for the next run. *)
Definition render `{Externals} (loaded : result Session) (c : Controls)
    : list Widget :=
  match loaded with
  | Ok s => [sidebar; main_header (page c)] ++ page_body s c ++ [footer]
  | Raise e => [st_error e; sidebar; main_header (page c); footer]
  end.

Definition script_cached `{Externals} (cache : option Tables) (fs : Files)
    (c : Controls) : list Widget * option Tables :=
  match load_data_cached cache fs with
  | (Ok tables, cache') => (render (process_tables tables) c, cache')
  | (Raise e, cache') => (render (Raise e) c, cache')
  end.

(** Successive runs of one process; each run finds the files in the
    state given with it. *)
Fixpoint runs `{Externals} (cache : option Tables)
    (steps : list (Files * Controls)) : list (list Widget) :=
  match steps with
  | [] => []
  | (fs, c) :: rest =>
      let '(shown, cache') := script_cached cache fs c in
      shown :: runs cache' rest
  end.

(** The other two files are read; the impact matrix is unreadable. *)
Definition parse_error : @Exn example_io := "Error tokenizing data".

Definition broken_impact : @Files example_io :=
  mkFiles (Ok example_main) (Ok example_forecast) (Raise parse_error).

(** ** Forecasts page: the two charts (app.py, lines 459-599) *)

(** The options of the model selectbox. *)
Inductive ModelType : Type := EventAugmented | LinearTrendOnly.

(** The columns of [acc_forecast] and [dp_forecast]. *)
Record ForecastFrame : Type := mkForecastFrame {
  fc_year : list Z;
  fc_base : list Q;
  fc_trend : list Q;
  fc_ci_lower : list Q;
  fc_ci_upper : list Q;
  fc_pessimistic : list Q;
  fc_optimistic : list Q
}.

Definition acc_forecast : ForecastFrame :=
  mkForecastFrame
    [2024; 2025; 2026; 2027]%Z
    [49.0; 61.8; 73.7; 82.5]%Q
    [49.0; 54.8; 57.7; 60.5]%Q
    [49.0; 42.9; 53.9; 61.9]%Q
    [49.0; 80.8; 93.4; 103.1]%Q
    [49.0; 57.8; 64.7; 70.0]%Q
    [49.0; 64.4; 79.5; 90.6]%Q.

Definition dp_forecast : ForecastFrame :=
  mkForecastFrame
    [2024; 2025; 2026; 2027]%Z
    [42.0; 59.6; 82.9; 100.0]%Q
    [42.0; 48.6; 52.9; 57.3]%Q
    [42.0; 35.8; 59.1; 79.1]%Q
    [42.0; 83.4; 100.0; 100.0]%Q
    [42.0; 53.3; 66.4; 79.1]%Q
    [42.0; 63.6; 93.4; 100.0]%Q.

(** One [go.Scatter] trace: its name and its points. *)
Record Trace : Type := mkTrace {
  trace_name : string;
  trace_x : list Z;
  trace_y : list Q
}.

Definition historical_acc : Trace :=
  mkTrace "Historical" [2011; 2014; 2017; 2021; 2024]%Z
          [14; 22; 35; 46; 49]%Q.

Definition historical_dp : Trace :=
  mkTrace "Historical/Estimated" [2017; 2021; 2024]%Z [12; 35; 42]%Q.

(** The band between the interval bounds: out along the upper bound,
    back along the lower one. *)
Definition ci_band (fc : ForecastFrame) : Trace :=
  mkTrace "95% CI"
          (fc_year fc ++ rev (fc_year fc))
          (fc_ci_upper fc ++ rev (fc_ci_lower fc)).

(** The traces added to a forecast figure, in order.  The script builds
    [fig_acc_fc] and [fig_dp_fc] by the same steps. *)
Definition forecast_figure (historical : Trace) (fc : ForecastFrame)
    (model_type : ModelType) (show_ci : bool) : list Trace :=
  historical ::
  match model_type with
  | EventAugmented =>
      mkTrace "Base Scenario" (fc_year fc) (fc_base fc)
      :: (if show_ci then [ci_band fc] else [])
  | LinearTrendOnly =>
      [mkTrace "Linear Trend" (fc_year fc) (fc_trend fc)]
  end.

Definition fig_acc_fc : ModelType -> bool -> list Trace :=
  forecast_figure historical_acc acc_forecast.

Definition fig_dp_fc : ModelType -> bool -> list Trace :=
  forecast_figure historical_dp dp_forecast.

(** ** Projections page: the scenarios (app.py, lines 649-729) *)

Record Scenario : Type := mkScenario {
  s2025 : Q;
  s2026 : Q;
  s2027 : Q;
  description : string
}.

(** A Python dict with string keys, in insertion order. *)
Definition Dict (V : Type) : Type := list (string * V).

(** [d[key]]; [None] is the KeyError. *)
Fixpoint getitem {V : Type} (d : Dict V) (key : string) : option V :=
  match d with
  | [] => None
  | (k, v) :: rest => if String.eqb k key then Some v else getitem rest key
  end.

Definition scenario_options : list string :=
  ["Base Case"; "Optimistic"; "Pessimistic"].

Definition scenarios : Dict Scenario :=
  [("Base Case",
    mkScenario 61.8 73.7 82.5
               "Expected event effects materialize as planned");
   ("Optimistic",
    mkScenario 64.4 79.5 90.6
               "Strong execution, synergies realized, accelerated adoption");
   ("Pessimistic",
    mkScenario 57.8 64.7 70.0
               "Economic headwinds, slower adoption, infrastructure delays")].

Definition colors : Dict string :=
  [("Base Case", "#27ae60"); ("Optimistic", "#3498db");
   ("Pessimistic", "#e74c3c")].

(** The bar of the gauge: green from 60 up, red below. *)
Definition gauge_bar_color (scenario_data : Scenario) : string :=
  if Qle_bool 60 (s2025 scenario_data) then "#27ae60" else "#e74c3c".

(** One trace of the comparison chart. *)
Record ScenarioTrace : Type := mkScenarioTrace {
  sc_name : string;
  sc_x : list Z;
  sc_y : list Q;
  sc_color : string;
  sc_dash : string;
  sc_marker_size : Z
}.

(** Whether a trace is drawn with the solid line. *)
Definition is_solid (t : ScenarioTrace) : bool :=
  String.eqb (sc_dash t) "solid".

(** The loop over [scenarios.items()]; [None] is the KeyError of
    [colors[scenario_name]]. *)
Fixpoint scenario_traces (items : Dict Scenario) (palette : Dict string)
    (selected_scenario : string) : option (list ScenarioTrace) :=
  match items with
  | [] => Some []
  | (scenario_name, data) :: rest =>
      match getitem palette scenario_name with
      | None => None
      | Some color =>
          match scenario_traces rest palette selected_scenario with
          | None => None
          | Some traces =>
              Some (mkScenarioTrace
                      scenario_name
                      [2024; 2025; 2026; 2027]%Z
                      [49%Q; s2025 data; s2026 data; s2027 data]
                      color
                      (if String.eqb scenario_name selected_scenario
                       then "solid" else "dot")
                      (if String.eqb scenario_name selected_scenario
                       then 8%Z else 6%Z)
                    :: traces)
          end
      end
  end.

(** What the page takes from the dictionaries for one selection: the
    selected scenario, the colour of the gauge bar and the traces of the
    comparison chart. *)
Definition projections_view (selected_scenario : string)
    : option (Scenario * string * list ScenarioTrace) :=
  match getitem scenarios selected_scenario with
  | None => None
  | Some scenario_data =>
      match scenario_traces scenarios colors selected_scenario with
      | None => None
      | Some traces =>
          Some (scenario_data, gauge_bar_color scenario_data, traces)
      end
  end.

(** ** Further example tables *)

(** A retained row without an indicator code. *)
Definition keyless_table : list Row :=
  [mkRow (mkRaw (Some "observation") (Some "2021-12-31") None
                (Some "ACCESS") (Some "all") (Some "%") (Some 12%Q))
         (Some 2021%Z)].

(** A reader for the example exports: an exported table of records is
    read back as its source columns. *)
Definition example_read_csv (file : Export)
    : result (H := example_io) (list Raw) :=
  match file with
  | rows_export t => Ok (map raw t)
  | _ => Raise (H := example_io) "not a table of records"
  end.

(** A unified table on which the date conversion raises: an observation
    with the zoned date next to observations dated without a zone. *)
Definition zoned_2024 : Raw :=
  mkRaw (Some "observation") (Some zoned_date) (Some "ACC_OWNERSHIP")
        (Some "ACCESS") (Some "all") (Some "%") (Some 49%Q).

Definition zoned_main : list Raw := zoned_2024 :: example_main.

Definition zoned_files : @Files example_io :=
  mkFiles (Ok zoned_main) (Ok example_forecast) (Ok example_impact).

(** ** Basic facts about cells *)

Lemma cell_eqb_spec (c : option string) (s : string) :
  cell_eqb c s = true <-> c = Some s.
Proof.
  destruct c as [v|]; simpl.
  - rewrite String.eqb_eq. split; [intros ->; reflexivity | congruence].
  - split; discriminate.
Qed.

Lemma isin_spec (c : option string) (values : list string) :
  isin c values = true <-> exists v, c = Some v /\ In v values.
Proof.
  destruct c as [v|]; simpl.
  - rewrite existsb_exists. split.
    + intros (x & Hin & Heq). apply String.eqb_eq in Heq. subst x.
      exists v. split; [reflexivity | assumption].
    + intros (x & Hx & Hin). injection Hx as <-.
      exists v. split; [assumption | apply String.eqb_refl].
  - split; [discriminate | intros (v & Hv & _); discriminate].
Qed.

Lemma year_bounds_spec (y : option Z) (lo hi : Z) :
  year_ge y lo && year_le y hi = true <->
  exists v, y = Some v /\ (lo <= v <= hi)%Z.
Proof.
  destruct y as [v|]; simpl.
  - rewrite andb_true_iff, !Z.leb_le. split.
    + intros [H1 H2]. exists v. auto.
    + intros (x & Hx & H1 & H2). injection Hx as <-. auto.
  - split; [discriminate | intros (v & Hv & _); discriminate].
Qed.

Lemma trend_mask_spec (u : string) (ps : list string) (yr : Z * Z) (r : Row) :
  trend_mask u ps yr r = true <->
  (exists p, pillar (raw r) = Some p /\ In p ps) /\
  (exists y, year r = Some y /\ (fst yr <= y <= snd yr)%Z) /\
  unit (raw r) = Some u.
Proof.
  unfold trend_mask.
  rewrite andb_true_iff, <- andb_assoc, andb_true_iff.
  rewrite isin_spec, year_bounds_spec, cell_eqb_spec.
  tauto.
Qed.

(** ** C1 *)

(** C1. For every observation table, pillar set, year range with
    [lo <= hi] and unit string, a row is retained by the filter step
    exactly when it is a row of the table whose pillar is a member of the
    pillar set, whose year is present and lies in [lo, hi] inclusive, and
    whose unit is the requested string; the retained rows keep their
    relative order, so nothing else is in the result. *)
Theorem filtered_obs_retains_exactly
    (observations : list Row) (pillars : list string)
    (year_range : Z * Z) (u : string)
    (Hrange : (fst year_range <= snd year_range)%Z) :
  forall r : Row,
    In r (filtered_obs_unit u observations pillars year_range) <->
    In r observations /\
    (exists p, pillar (raw r) = Some p /\ In p pillars) /\
    (exists y, year r = Some y /\
               (fst year_range <= y <= snd year_range)%Z) /\
    unit (raw r) = Some u.
Proof.
  intro r. unfold filtered_obs_unit.
  rewrite filter_In, trend_mask_spec. reflexivity.
Qed.

(** The filter on [ownership_table] for the pillar ACCESS, the years 2014
    to 2021 and the unit of the script. *)
Lemma filtered_obs_retains_exactly_witness :
  (fst (2014, 2021) <= snd (2014, 2021))%Z /\
  forall r : Row,
    In r (filtered_obs_unit "%" ownership_table ["ACCESS"] (2014, 2021)%Z) <->
    In r ownership_table /\
    (exists p, pillar (raw r) = Some p /\ In p ["ACCESS"]) /\
    (exists y, year r = Some y /\
               (fst (2014, 2021) <= y <= snd (2014, 2021))%Z) /\
    unit (raw r) = Some "%".
Proof.
  split.
  - simpl. lia.
  - apply (filtered_obs_retains_exactly ownership_table ["ACCESS"]
             (2014, 2021)%Z "%").
    simpl. lia.
Defined.

(** ** The order on group keys *)

Lemma ascii_compare_refl (a : ascii) : Ascii.compare a a = Eq.
Proof. unfold Ascii.compare. apply N.compare_refl. Qed.

Lemma ascii_compare_lt_trans (a b c : ascii) :
  Ascii.compare a b = Lt -> Ascii.compare b c = Lt -> Ascii.compare a c = Lt.
Proof.
  unfold Ascii.compare. rewrite !N.compare_lt_iff. apply N.lt_trans.
Qed.

Lemma string_compare_refl (s : string) : String.compare s s = Eq.
Proof.
  induction s as [|a s IH]; simpl; [reflexivity|].
  rewrite ascii_compare_refl. exact IH.
Qed.

Lemma string_compare_eq (s t : string) : String.compare s t = Eq <-> s = t.
Proof.
  split; [apply String.compare_eq_iff | intros ->; apply string_compare_refl].
Qed.

Lemma string_compare_lt_trans (s t u : string) :
  String.compare s t = Lt -> String.compare t u = Lt -> String.compare s u = Lt.
Proof.
  revert t u. induction s as [|a s IH]; intros [|b t] [|c u]; simpl;
    try discriminate; try reflexivity.
  destruct (Ascii.compare a b) eqn:Hab; try discriminate;
    destruct (Ascii.compare b c) eqn:Hbc; try discriminate; intros H1 H2.
  - apply Ascii.compare_eq_iff in Hab, Hbc. subst b c.
    rewrite ascii_compare_refl. eapply IH; eassumption.
  - apply Ascii.compare_eq_iff in Hab. subst b. rewrite Hbc. reflexivity.
  - apply Ascii.compare_eq_iff in Hbc. subst c. rewrite Hab. reflexivity.
  - rewrite (ascii_compare_lt_trans _ _ _ Hab Hbc). reflexivity.
Qed.

Lemma key_compare_eq (a b : Key) : key_compare a b = Eq <-> a = b.
Proof.
  destruct a as [[i1 y1] p1], b as [[i2 y2] p2]. simpl. split.
  - destruct (String.compare i1 i2) eqn:Hi; try discriminate.
    destruct (Z.compare y1 y2) eqn:Hy; try discriminate.
    intro Hp. apply string_compare_eq in Hi, Hp. apply Z.compare_eq_iff in Hy.
    congruence.
  - intro E. injection E as -> -> ->.
    rewrite !string_compare_refl, Z.compare_refl. reflexivity.
Qed.

Lemma key_compare_antisym (a b : Key) :
  key_compare a b = CompOpp (key_compare b a).
Proof.
  destruct a as [[i1 y1] p1], b as [[i2 y2] p2]. simpl.
  rewrite (String.compare_antisym i1 i2), (Z.compare_antisym y2 y1),
    (String.compare_antisym p1 p2).
  destruct (String.compare i2 i1); simpl; try reflexivity.
  destruct (Z.compare y2 y1); simpl; reflexivity.
Qed.

Lemma key_lt_trans (a b c : Key) : key_lt a b -> key_lt b c -> key_lt a c.
Proof.
  unfold key_lt.
  destruct a as [[i1 y1] p1], b as [[i2 y2] p2], c as [[i3 y3] p3]. simpl.
  destruct (String.compare i1 i2) eqn:H12; try discriminate;
    destruct (String.compare i2 i3) eqn:H23; try discriminate.
  - apply string_compare_eq in H12, H23. subst i2 i3.
    rewrite string_compare_refl.
    destruct (Z.compare y1 y2) eqn:Y12; try discriminate;
      destruct (Z.compare y2 y3) eqn:Y23; try discriminate.
    + apply Z.compare_eq_iff in Y12, Y23. subst y2 y3.
      rewrite Z.compare_refl. apply string_compare_lt_trans.
    + apply Z.compare_eq_iff in Y12. subst y2. rewrite Y23. reflexivity.
    + apply Z.compare_eq_iff in Y23. subst y3. rewrite Y12. reflexivity.
    + rewrite Z.compare_lt_iff in *.
      assert (Hlt : (y1 < y3)%Z) by lia.
      apply Z.compare_lt_iff in Hlt. rewrite Hlt. reflexivity.
  - apply string_compare_eq in H12. subst i2. rewrite H23. reflexivity.
  - apply string_compare_eq in H23. subst i3. rewrite H12. reflexivity.
  - rewrite (string_compare_lt_trans _ _ _ H12 H23). reflexivity.
Qed.

Lemma key_lt_irrefl (a : Key) : ~ key_lt a a.
Proof.
  unfold key_lt. rewrite (proj2 (key_compare_eq a a) eq_refl). discriminate.
Qed.

Lemma key_eqb_eq (a b : Key) : key_eqb a b = true <-> a = b.
Proof.
  unfold key_eqb. rewrite <- key_compare_eq.
  destruct (key_compare a b); split; congruence.
Qed.

(** ** The distinct keys of a frame *)

Lemma insert_key_In (k x : Key) (ks : list Key) :
  In x (insert_key k ks) <-> x = k \/ In x ks.
Proof.
  induction ks as [|k' rest IH]; simpl.
  - intuition.
  - destruct (key_compare k k') eqn:Hc; simpl.
    + apply key_compare_eq in Hc. subst k'. intuition.
    + intuition.
    + rewrite IH. intuition.
Qed.

Lemma insert_key_sorted (k : Key) (ks : list Key) :
  StronglySorted key_lt ks -> StronglySorted key_lt (insert_key k ks).
Proof.
  induction ks as [|k' rest IH]; simpl; intro Hs.
  - constructor; constructor.
  - apply StronglySorted_inv in Hs. destruct Hs as [Hrest Hall].
    destruct (key_compare k k') eqn:Hc.
    + constructor; assumption.
    + constructor; [constructor; assumption|].
      constructor; [exact Hc|].
      eapply Forall_impl; [|exact Hall].
      intros x Hx. eapply key_lt_trans; eassumption.
    + constructor; [apply IH; assumption|].
      apply Forall_forall. intros x Hx.
      apply insert_key_In in Hx. destruct Hx as [->|Hx].
      * unfold key_lt. rewrite key_compare_antisym, Hc. reflexivity.
      * rewrite Forall_forall in Hall. apply Hall. assumption.
Qed.

Lemma group_keys_In (rows : list Row) (k : Key) :
  In k (group_keys rows) <-> exists r, In r rows /\ group_key r = Some k.
Proof.
  induction rows as [|r rest IH]; simpl.
  - split; [contradiction | intros (r & [] & _)].
  - destruct (group_key r) as [k'|] eqn:Hk.
    + rewrite insert_key_In, IH. split.
      * intros [->|(x & Hx & Hkx)].
        -- exists r. auto.
        -- exists x. auto.
      * intros (x & [<-|Hx] & Hkx).
        -- left. congruence.
        -- right. exists x. auto.
    + rewrite IH. split.
      * intros (x & Hx & Hkx). exists x. auto.
      * intros (x & [<-|Hx] & Hkx); [congruence|]. exists x. auto.
Qed.

Lemma group_keys_sorted (rows : list Row) :
  StronglySorted key_lt (group_keys rows).
Proof.
  induction rows as [|r rest IH]; simpl.
  - constructor.
  - destruct (group_key r); [apply insert_key_sorted|]; assumption.
Qed.

Lemma sorted_keys_NoDup (ks : list Key) :
  StronglySorted key_lt ks -> NoDup ks.
Proof.
  induction 1 as [|k ks Hs IH Hall]; constructor; [|assumption].
  intro Hin. rewrite Forall_forall in Hall.
  exact (key_lt_irrefl k (Hall k Hin)).
Qed.

Lemma trend_data_keys `{Externals} (rows : list Row) :
  map fst (trend_data rows) = group_keys rows.
Proof.
  unfold trend_data. rewrite map_map. simpl. apply map_id.
Qed.

Lemma in_group_spec (k : Key) (r : Row) :
  in_group k r = true <-> group_key r = Some k.
Proof.
  unfold in_group. destruct (group_key r) as [k'|].
  - rewrite key_eqb_eq. split; congruence.
  - split; discriminate.
Qed.

(** ** The mean *)

Lemma mean_absent `{Externals} (vs : list (option Q)) :
  non_absent vs = [] -> mean vs = None.
Proof. unfold mean. intros ->. reflexivity. Qed.

Lemma mean_values `{Externals} (vs : list (option Q)) :
  non_absent vs <> [] -> mean vs = float_mean (non_absent vs).
Proof.
  unfold mean. destruct (non_absent vs); [congruence | reflexivity].
Qed.

Lemma exact_mean_correct (qs : list Q) :
  (exact_mean qs == Qsum qs / inject_Z (Z.of_nat (List.length qs)))%Q.
Proof. unfold exact_mean. apply Qred_correct. Qed.

(** ** C2 *)

(** C2, as the specification states it, fails on a group without any
    value: the two rows of [nan_group_table] pass the filter, form one
    group whose [value_numeric] cells are all absent, and the group is in
    the output, with an absent (NaN) mean, whatever the float
    arithmetic. *)
Lemma all_absent_group_is_reported :
  let filtered :=
    filtered_obs nan_group_table ["ACCESS"; "USAGE"] (2011, 2025)%Z in
  filtered = nan_group_table /\
  group_values ("ACC_MM_ACCOUNT", 2021%Z, "ACCESS") filtered = [None; None] /\
  forall E : Externals,
    trend_data (H := E) filtered
    = [(("ACC_MM_ACCOUNT", 2021%Z, "ACCESS"), None)].
Proof. repeat split. Qed.

(** C2, amended. For every filtered row set the aggregation reports one
    row per key triple (indicator_code, year, pillar) that occurs among
    the rows whose three key cells are present, in ascending key order and
    without repetition; the rows of a group are exactly the rows with that
    key; the reported value is the float64 mean of the group's non-absent
    [value_numeric] cells, absent values counting neither in the sum nor
    in the count, and it is absent (NaN) when the group has no non-absent
    value: such a group is kept in the output.  Where float64 arithmetic
    rounds nothing the reported value is the arithmetic mean itself: the
    values 10.0, 20.0, absent give 15.0. *)
Theorem trend_data_groups_and_means `{Externals} (filtered : list Row) :
  (forall k : Key,
      In k (map fst (trend_data filtered)) <->
      exists r, In r filtered /\ group_key r = Some k) /\
  StronglySorted key_lt (map fst (trend_data filtered)) /\
  NoDup (map fst (trend_data filtered)) /\
  (forall (k : Key) (r : Row),
      In r (filter (in_group k) filtered) <->
      In r filtered /\ group_key r = Some k) /\
  (forall (k : Key) (m : option Q),
      In (k, m) (trend_data filtered) ->
      let values := non_absent (group_values k filtered) in
      (values = [] -> m = None) /\
      (values <> [] -> m = float_mean values) /\
      (values <> [] -> no_rounding values = true ->
       exists q,
         m = Some q /\
         (q == Qsum values / inject_Z (Z.of_nat (List.length values)))%Q)) /\
  (forall k : Key,
      (exists r, In r filtered /\ group_key r = Some k) ->
      non_absent (group_values k filtered) = [] ->
      In (k, None) (trend_data filtered)) /\
  mean [Some 10%Q; Some 20%Q; None] = Some 15%Q /\
  trend_data mixed_group_table
  = [(("USG_DIGITAL_PAYMENT", 2024%Z, "USAGE"), Some 15%Q)].
Proof.
  rewrite trend_data_keys.
  split; [intro k; apply group_keys_In|].
  split; [apply group_keys_sorted|].
  split; [apply sorted_keys_NoDup, group_keys_sorted|].
  split; [intros k r; rewrite filter_In, in_group_spec; reflexivity|].
  split.
  { intros k m Hin values. unfold trend_data in Hin.
    apply in_map_iff in Hin. destruct Hin as (k' & Heq & _).
    injection Heq as -> Hm. subst values m.
    split; [apply mean_absent|].
    split; [apply mean_values|].
    intros Hne Hexact. exists (exact_mean (non_absent (group_values k filtered))).
    split; [|apply exact_mean_correct].
    rewrite (mean_values _ Hne). apply float_mean_exact; assumption. }
  split.
  { intros k Hex Hnone. unfold trend_data. apply in_map_iff.
    exists k. split.
    - f_equal. apply mean_absent. assumption.
    - apply group_keys_In. assumption. }
  assert (Hmean : mean [Some 10%Q; Some 20%Q; None] = Some 15%Q).
  { change (float_mean [10%Q; 20%Q] = Some 15%Q).
    rewrite float_mean_exact; [reflexivity | discriminate | reflexivity]. }
  split; [exact Hmean|].
  assert (Hkeys : group_keys mixed_group_table
                  = [("USG_DIGITAL_PAYMENT", 2024%Z, "USAGE")])
    by reflexivity.
  assert (Hvalues : group_values ("USG_DIGITAL_PAYMENT", 2024%Z, "USAGE")
                                 mixed_group_table
                    = [Some 10%Q; Some 20%Q; None])
    by reflexivity.
  unfold trend_data. rewrite Hkeys. cbn [map].
  rewrite Hvalues, Hmean. reflexivity.
Qed.

(** ** Sorting by year *)

Lemma year_leb_trans (a b c : option Z) :
  year_leb a b = true -> year_leb b c = true -> year_leb a c = true.
Proof.
  destruct a, b, c; simpl; try discriminate; try reflexivity.
  rewrite !Z.leb_le. lia.
Qed.

Lemma year_leb_total (a b : option Z) :
  year_leb a b = false -> year_leb b a = true.
Proof.
  destruct a, b; simpl; try discriminate; try reflexivity.
  rewrite Z.leb_gt, Z.leb_le. lia.
Qed.

Lemma year_leb_antisym (a b : option Z) :
  year_leb a b = true -> year_leb b a = true -> a = b.
Proof.
  destruct a, b; simpl; try discriminate; try reflexivity.
  rewrite !Z.leb_le. intros H1 H2. f_equal. lia.
Qed.

Lemma insert_row_perm (r : Row) (l : list Row) :
  Permutation (insert_row r l) (r :: l).
Proof.
  induction l as [|h t IH]; simpl.
  - apply Permutation_refl.
  - destruct (year_leb (year r) (year h)).
    + apply Permutation_refl.
    + eapply perm_trans; [apply perm_skip, IH | apply perm_swap].
Qed.

Lemma sort_values_year_perm (l : list Row) :
  Permutation (sort_values_year l) l.
Proof.
  induction l as [|r rest IH]; simpl.
  - apply perm_nil.
  - eapply perm_trans; [apply insert_row_perm | apply perm_skip, IH].
Qed.

Lemma insert_row_sorted (r : Row) (l : list Row) :
  StronglySorted year_order l -> StronglySorted year_order (insert_row r l).
Proof.
  induction l as [|h t IH]; simpl; intro Hs.
  - constructor; constructor.
  - apply StronglySorted_inv in Hs. destruct Hs as [Ht Hall].
    destruct (year_leb (year r) (year h)) eqn:Hc.
    + constructor; [constructor; assumption|].
      constructor; [exact Hc|].
      eapply Forall_impl; [|exact Hall].
      intros x Hx. eapply year_leb_trans; eassumption.
    + constructor; [apply IH; assumption|].
      eapply Permutation_Forall;
        [apply Permutation_sym, insert_row_perm|].
      constructor; [apply year_leb_total; exact Hc | exact Hall].
Qed.

Lemma sort_values_year_sorted (l : list Row) :
  StronglySorted year_order (sort_values_year l).
Proof.
  induction l as [|r rest IH]; simpl.
  - constructor.
  - apply insert_row_sorted, IH.
Qed.

Lemma sorted_map {A B : Type} (f : A -> B) (R : B -> B -> Prop) (l : list A) :
  StronglySorted (fun a b => R (f a) (f b)) l -> StronglySorted R (map f l).
Proof.
  induction 1 as [|a l Hs IH Hall]; simpl; constructor.
  - assumption.
  - apply Forall_map. assumption.
Qed.

(** Two ascending orderings of the same rows agree when no two rows share
    a key. *)
Lemma sorted_perm_unique {A : Type} (key : A -> option Z) (l1 l2 : list A) :
  StronglySorted (ordered_by key) l1 ->
  StronglySorted (ordered_by key) l2 ->
  Permutation l1 l2 ->
  NoDup (map key l1) ->
  l1 = l2.
Proof.
  revert l2. induction l1 as [|a t1 IH]; intros l2 H1 H2 Hp Hnd.
  - apply Permutation_nil in Hp. congruence.
  - destruct l2 as [|b t2].
    + apply Permutation_sym, Permutation_nil in Hp. discriminate.
    + apply StronglySorted_inv in H1. destruct H1 as [Ht1 Ha].
      apply StronglySorted_inv in H2. destruct H2 as [Ht2 Hb].
      rewrite Forall_forall in Ha, Hb.
      simpl in Hnd. apply NoDup_cons_iff in Hnd. destruct Hnd as [Hnotin Hnd].
      assert (Hab : a = b).
      { assert (Hin_a : In a (b :: t2))
          by (eapply Permutation_in; [exact Hp | left; reflexivity]).
        assert (Hin_b : In b (a :: t1))
          by (eapply Permutation_in;
              [apply Permutation_sym; exact Hp | left; reflexivity]).
        destruct Hin_a as [E|Hin_a]; [congruence|].
        destruct Hin_b as [E|Hin_b]; [congruence|].
        exfalso. apply Hnotin.
        rewrite (year_leb_antisym _ _ (Ha b Hin_b) (Hb a Hin_a)).
        apply in_map. assumption. }
      subst b. f_equal.
      apply IH; try assumption.
      eapply Permutation_cons_inv. exact Hp.
Qed.

(** ** Reading the end of a column *)

Lemma iloc_neg_1 {A : Type} (l : list A) (a : A) :
  iloc_neg 1 (l ++ [a]) = Some a.
Proof. unfold iloc_neg. rewrite rev_app_distr. reflexivity. Qed.

Lemma iloc_neg_2 {A : Type} (l : list A) (b a : A) :
  iloc_neg 2 (l ++ [b; a]) = Some b.
Proof. unfold iloc_neg. rewrite rev_app_distr. reflexivity. Qed.

Lemma selector_mask_spec (code g : string) (r : Row) :
  selector_mask code g r = true <->
  indicator_code (raw r) = Some code /\ gender (raw r) = Some g.
Proof.
  unfold selector_mask. rewrite andb_true_iff, !cell_eqb_spec. reflexivity.
Qed.

Lemma select_sorted_perm (code g : string) (obs : list Row) :
  Permutation (select_sorted code g obs) (filter (selector_mask code g) obs).
Proof. apply sort_values_year_perm. Qed.

Lemma select_sorted_In (code g : string) (obs : list Row) (r : Row) :
  In r (select_sorted code g obs) <->
  In r obs /\ indicator_code (raw r) = Some code /\ gender (raw r) = Some g.
Proof.
  rewrite <- selector_mask_spec, <- filter_In. split; apply Permutation_in.
  - apply select_sorted_perm.
  - apply Permutation_sym, select_sorted_perm.
Qed.

(** The selector on a frame given by its rows. *)
Lemma latestAndPrevious_nil (obs : list Row) (code g : string) :
  select_sorted code g obs = [] ->
  latestAndPrevious obs code g = (None, None).
Proof. unfold latestAndPrevious. intros ->. reflexivity. Qed.

Lemma latestAndPrevious_one (obs : list Row) (code g : string) (a : Row) :
  select_sorted code g obs = [a] ->
  latestAndPrevious obs code g = (Some (value_numeric (raw a)), None).
Proof. unfold latestAndPrevious. intros ->. reflexivity. Qed.

Lemma latestAndPrevious_two (obs : list Row) (code g : string)
    (front : list Row) (b a : Row) :
  select_sorted code g obs = front ++ [b; a] ->
  latestAndPrevious obs code g
  = (Some (value_numeric (raw a)), Some (value_numeric (raw b))).
Proof.
  unfold latestAndPrevious. intros ->.
  rewrite map_app. simpl map.
  rewrite (iloc_neg_2 _ (value_numeric (raw b)) (value_numeric (raw a))).
  change [value_numeric (raw b); value_numeric (raw a)]
    with ([value_numeric (raw b)] ++ [value_numeric (raw a)]).
  rewrite app_assoc, iloc_neg_1.
  rewrite !length_app. simpl List.length.
  replace (0 <? List.length front + 2)%nat with true
    by (symmetry; apply Nat.ltb_lt; lia).
  replace (1 <? List.length front + 2)%nat with true
    by (symmetry; apply Nat.ltb_lt; lia).
  reflexivity.
Qed.

Lemma latest_last (obs : list Row) (code g : string)
    (front : list Row) (a : Row) :
  select_sorted code g obs = front ++ [a] ->
  fst (latestAndPrevious obs code g) = Some (value_numeric (raw a)).
Proof.
  unfold latestAndPrevious. intros ->. simpl fst.
  rewrite map_app. simpl map. rewrite iloc_neg_1.
  rewrite length_app. simpl List.length.
  replace (0 <? List.length front + 1)%nat with true
    by (symmetry; apply Nat.ltb_lt; lia).
  reflexivity.
Qed.

(** The two names the script binds: the selector's values, or the
    literals 49.0 and 46.0 where the selector has none. *)
Lemma current_acc_fallback (obs : list Row) :
  acc_ownership obs = [] ->
  current_acc obs = Some 49%Q /\ prev_acc obs = Some 46%Q.
Proof.
  intro Hempty. unfold current_acc, prev_acc.
  rewrite (latestAndPrevious_nil obs _ _ Hempty). split; reflexivity.
Qed.

Lemma prev_acc_fallback (obs : list Row) (a : Row) :
  acc_ownership obs = [a] ->
  current_acc obs = value_numeric (raw a) /\ prev_acc obs = Some 46%Q.
Proof.
  intro Hone. unfold current_acc, prev_acc.
  rewrite (latestAndPrevious_one obs _ _ a Hone). split; reflexivity.
Qed.

(** ** C3 *)

(** C3. For every observation table, indicator code and gender,
    [latestAndPrevious] works on the rows whose [indicator_code] and
    [gender] match, put in ascending order of [year]; it returns the
    [value_numeric] cell of the last row as current and that of the row
    before it as previous; with no matching row both are absent, with one
    matching row previous is absent.  For every table whose rows of
    indicator ACC_OWNERSHIP and gender all carry the years and values
    2011:14, 2014:22, 2017:35, 2021:46, 2024:49, in whatever frame order,
    it returns (49, 46). *)
Theorem latestAndPrevious_last_two
    (observations : list Row) (code g : string) :
  let frame := select_sorted code g observations in
  Permutation frame (filter (selector_mask code g) observations) /\
  (forall r, In r frame <->
             In r observations /\
             indicator_code (raw r) = Some code /\ gender (raw r) = Some g) /\
  StronglySorted year_order frame /\
  (frame = [] -> latestAndPrevious observations code g = (None, None)) /\
  (forall a, frame = [a] ->
     latestAndPrevious observations code g
     = (Some (value_numeric (raw a)), None)) /\
  (forall front b a, frame = front ++ [b; a] ->
     latestAndPrevious observations code g
     = (Some (value_numeric (raw a)), Some (value_numeric (raw b)))) /\
  (forall table : list Row,
     Permutation
       (map year_and_value
            (filter (selector_mask "ACC_OWNERSHIP" "all") table))
       ownership_rounds ->
     latestAndPrevious table "ACC_OWNERSHIP" "all"
     = (Some (Some 49%Q), Some (Some 46%Q))) /\
  latestAndPrevious ownership_table "ACC_OWNERSHIP" "all"
  = (Some (Some 49%Q), Some (Some 46%Q)).
Proof.
  intro frame.
  split; [apply select_sorted_perm|].
  split; [intro r; apply select_sorted_In|].
  split; [apply sort_values_year_sorted|].
  split; [apply latestAndPrevious_nil|].
  split; [intro a; apply latestAndPrevious_one|].
  split; [intros front b a; apply latestAndPrevious_two|].
  split; [|reflexivity].
  intros table Hrounds.
  set (sorted := select_sorted "ACC_OWNERSHIP" "all" table).
  assert (Hperm : Permutation (map year_and_value sorted) ownership_rounds).
  { eapply perm_trans; [|exact Hrounds].
    apply Permutation_map, select_sorted_perm. }
  assert (Hpairs : map year_and_value sorted = ownership_rounds).
  { apply (sorted_perm_unique fst).
    - apply (sorted_map year_and_value (ordered_by fst)).
      apply sort_values_year_sorted.
    - unfold ownership_rounds. repeat constructor.
    - exact Hperm.
    - eapply Permutation_NoDup.
      + apply Permutation_sym, Permutation_map. exact Hperm.
      + unfold ownership_rounds. simpl.
        repeat (constructor; [simpl; intuition discriminate|]).
        constructor. }
  destruct sorted as [|r1 [|r2 [|r3 [|r4 [|r5 [|r6 rest]]]]]] eqn:Hs;
    try discriminate Hpairs.
  unfold ownership_rounds, year_and_value in Hpairs. simpl in Hpairs.
  rewrite (latestAndPrevious_two table _ _ [r1; r2; r3] r4 r5 Hs).
  congruence.
Qed.

(** ** C10 *)

Lemma sorted_absent_last (l : list Row) :
  StronglySorted year_order l ->
  exists present absent,
    l = present ++ absent /\
    Forall (fun x => year x <> None) present /\
    Forall (fun x => year x = None) absent.
Proof.
  induction 1 as [|a t Hs IH Hall].
  - exists [], []. repeat split; constructor.
  - destruct IH as (p & q & Ht & Hp & Hq).
    destruct (year a) as [y|] eqn:Hy.
    + exists (a :: p), q. subst t. repeat split; [|assumption].
      constructor; [congruence | assumption].
    + exists [], (a :: t). repeat split; [constructor|].
      constructor; [assumption|].
      eapply Forall_impl; [|exact Hall].
      intros x Hx. unfold year_order, ordered_by in Hx. rewrite Hy in Hx.
      destruct (year x); [discriminate | reflexivity].
Qed.

(** C10. The latest-value selector keeps the rows whose year is absent:
    whenever some row matching the indicator and the gender has an absent
    year, the sorted frame is the rows with a year followed by the rows
    without one, that row is among the latter, and the value returned as
    current is the [value_numeric] cell of the last row, a row without a
    year; it is the value of that very row when no other matching row
    lacks a year. *)
Theorem absent_year_row_is_current
    (observations : list Row) (code g : string) (r : Row)
    (Hin : In r observations)
    (Hmatch : selector_mask code g r = true)
    (Hyear : year r = None) :
  exists (present absent : list Row) (a : Row),
    select_sorted code g observations = present ++ absent ++ [a] /\
    Forall (fun x => year x <> None) present /\
    Forall (fun x => year x = None) (absent ++ [a]) /\
    In r (absent ++ [a]) /\
    fst (latestAndPrevious observations code g)
    = Some (value_numeric (raw a)) /\
    ((forall x, In x observations -> selector_mask code g x = true ->
                year x = None -> x = r) ->
     fst (latestAndPrevious observations code g)
     = Some (value_numeric (raw r))).
Proof.
  destruct (sorted_absent_last (select_sorted code g observations)
              (sort_values_year_sorted _))
    as (present & absent & Hframe & Hpresent & Habsent).
  assert (Hr : In r absent).
  { assert (Hrf : In r (select_sorted code g observations)).
    { apply select_sorted_In. split; [assumption|].
      apply selector_mask_spec. assumption. }
    rewrite Hframe in Hrf. apply in_app_or in Hrf.
    destruct Hrf as [Hrp|Hra]; [|assumption].
    rewrite Forall_forall in Hpresent. exfalso.
    exact (Hpresent r Hrp Hyear). }
  destruct (exists_last (l := absent)) as (absent' & a & Hlast).
  { intros ->. contradiction. }
  subst absent.
  assert (Hcur : fst (latestAndPrevious observations code g)
                 = Some (value_numeric (raw a))).
  { apply (latest_last _ _ _ (present ++ absent')).
    rewrite Hframe. apply app_assoc. }
  exists present, absent', a.
  split; [assumption|].
  split; [assumption|].
  split; [assumption|].
  split; [assumption|].
  split; [assumption|].
  intro Honly. rewrite Hcur. do 3 f_equal.
  assert (Ha : In a (select_sorted code g observations)).
  { rewrite Hframe. apply in_or_app. right.
    apply in_or_app. right. left. reflexivity. }
  apply select_sorted_In in Ha. destruct Ha as (Hao & Hac).
  apply Honly.
  - assumption.
  - apply selector_mask_spec. assumption.
  - rewrite Forall_forall in Habsent. apply Habsent.
    apply in_or_app. right. left. reflexivity.
Qed.

(** The row without a year of [undated_table] is returned as current,
    ahead of the 2024 row. *)
Lemma absent_year_row_is_current_witness :
  In undated_row undated_table /\
  selector_mask "ACC_OWNERSHIP" "all" undated_row = true /\
  year undated_row = None /\
  latestAndPrevious undated_table "ACC_OWNERSHIP" "all"
  = (Some (Some 7%Q), Some (Some 49%Q)) /\
  exists (present absent : list Row) (a : Row),
    select_sorted "ACC_OWNERSHIP" "all" undated_table
    = present ++ absent ++ [a] /\
    Forall (fun x => year x <> None) present /\
    Forall (fun x => year x = None) (absent ++ [a]) /\
    In undated_row (absent ++ [a]) /\
    fst (latestAndPrevious undated_table "ACC_OWNERSHIP" "all")
    = Some (value_numeric (raw a)) /\
    ((forall x, In x undated_table ->
                selector_mask "ACC_OWNERSHIP" "all" x = true ->
                year x = None -> x = undated_row) ->
     fst (latestAndPrevious undated_table "ACC_OWNERSHIP" "all")
     = Some (value_numeric (raw undated_row))).
Proof.
  split; [left; reflexivity|].
  split; [reflexivity|].
  split; [reflexivity|].
  split; [reflexivity|].
  apply (absent_year_row_is_current undated_table "ACC_OWNERSHIP" "all"
           undated_row).
  - left. reflexivity.
  - reflexivity.
  - reflexivity.
Defined.

(** ** The try block and the cache *)

Lemma load_data_ok `{Externals} (fs : Files) main forecast impact :
  load_data fs = Ok (main, forecast, impact) <->
  main_csv fs = Ok main /\ forecast_csv fs = Ok forecast /\
  impact_csv fs = Ok impact.
Proof.
  unfold load_data.
  destruct (main_csv fs) as [m|e1];
    destruct (forecast_csv fs) as [f|e2];
    destruct (impact_csv fs) as [i|e3];
    split; try (intros (? & ? & ?)); try intro; try discriminate;
    try (repeat split; congruence); congruence.
Qed.

Lemma process_tables_ok `{Externals} main forecast impact :
  year_column_error (filter is_observation main) = None ->
  year_column_error (filter is_event main) = None ->
  process_tables (main, forecast, impact)
  = Ok (mkSession main forecast impact
                  (process_observations main) (process_events main)).
Proof.
  intros Ho He.
  unfold process_tables, process_observations_run, process_events_run.
  rewrite Ho, He. reflexivity.
Qed.

Lemma process_tables_inv `{Externals} main forecast impact (s : Session) :
  process_tables (main, forecast, impact) = Ok s ->
  s = mkSession main forecast impact
                (process_observations main) (process_events main) /\
  year_column_error (filter is_observation main) = None /\
  year_column_error (filter is_event main) = None.
Proof.
  unfold process_tables, process_observations_run, process_events_run.
  destruct (year_column_error (filter is_observation main)); [discriminate|].
  destruct (year_column_error (filter is_event main)); [discriminate|].
  intros [= <-]. auto.
Qed.

Lemma script_render `{Externals} (fs : Files) (c : Controls) :
  script fs c = render (load_session fs) c.
Proof. unfold script, render. destruct (load_session fs); reflexivity. Qed.

Lemma render_ok_no_error `{Externals} (s : Session) (c : Controls) (e : Exn) :
  ~ In (st_error e) (render (Ok s) c).
Proof.
  unfold render, page_body, trends_section.
  destruct (page c); simpl;
    try destruct (0 <? List.length _)%nat;
    intuition discriminate.
Qed.

Lemma script_files_of `{Externals} (tables : Tables) (c : Controls) :
  script (files_of tables) c = render (process_tables tables) c.
Proof.
  rewrite script_render. destruct tables as [[main forecast] impact].
  reflexivity.
Qed.

Lemma runs_cons `{Externals} (cache : option Tables) (fs : Files)
    (c : Controls) (rest : list (Files * Controls)) :
  runs cache ((fs, c) :: rest)
  = fst (script_cached cache fs c)
    :: runs (snd (script_cached cache fs c)) rest.
Proof. simpl. destruct (script_cached cache fs c). reflexivity. Qed.

Lemma script_cached_hit `{Externals} (tables : Tables) (fs : Files)
    (c : Controls) :
  script_cached (Some tables) fs c
  = (script (files_of tables) c, Some tables).
Proof. rewrite script_files_of. reflexivity. Qed.

Lemma script_cached_miss_ok `{Externals} (fs : Files) (c : Controls)
    (tables : Tables) :
  load_data fs = Ok tables ->
  script_cached None fs c = (script fs c, Some tables).
Proof.
  intro Hload. rewrite script_render.
  unfold script_cached, load_data_cached, load_session.
  rewrite Hload. reflexivity.
Qed.

Lemma script_cached_miss_raise `{Externals} (fs : Files) (c : Controls)
    (e : Exn) :
  load_data fs = Raise e ->
  script_cached None fs c
  = ([st_error e; sidebar; main_header (page c); footer], None).
Proof.
  intro Hload. unfold script_cached, load_data_cached.
  rewrite Hload. reflexivity.
Qed.

Lemma runs_hit `{Externals} (tables : Tables)
    (steps : list (Files * Controls)) :
  runs (Some tables) steps
  = map (fun step => script (files_of tables) (snd step)) steps.
Proof.
  induction steps as [|[fs c] rest IH]; [reflexivity|].
  rewrite runs_cons, script_cached_hit. cbn [fst snd map].
  rewrite IH. reflexivity.
Qed.

(** ** C4 *)

Lemma with_year_present `{Externals} (rec : Raw) (y : Z) :
  year (with_year rec) = Some y ->
  exists d t,
    observation_date rec = Some d /\ parse_mixed d = Some t /\ ts_year t = y.
Proof.
  unfold with_year, to_datetime, dt_year. simpl.
  destruct (observation_date rec) as [d|]; [|discriminate].
  destruct (parse_mixed d) as [t|] eqn:Hp; [|discriminate].
  simpl. intros [= <-]. exists d, t. auto.
Qed.

Lemma process_observations_In `{Externals} (main : list Raw) (r : Row) :
  In r (process_observations main) <->
  exists rec, In rec main /\ is_observation rec = true /\ r = with_year rec.
Proof.
  unfold process_observations. rewrite in_map_iff. split.
  - intros (rec & <- & Hin). apply filter_In in Hin. exists rec. tauto.
  - intros (rec & Hin & Hobs & ->). exists rec.
    split; [reflexivity | apply filter_In; auto].
Qed.

(** C4. A record whose [observation_date] no supported format reads gets
    an absent year, not a number, and its row has no group key.  The
    unreadable date raises nothing: in the conversion of a date column
    the string weighs as an empty cell, so the conversion raises with it
    exactly when it raises with the cell empty; when the conversion of
    the observations returns, the record is in the frame, and when the
    conversion raises on neither frame the load succeeds.  The row is
    retained by the filter for no pillar set, year range or unit, and
    every row that a year-bounded filter does retain has a date that was
    read, its year being the year of that date. *)
Theorem unparseable_date_is_absent_year `{Externals}
    (main : list Raw) (rec : Raw) (s : string)
    (Hin : In rec main)
    (Hdate : observation_date rec = Some s)
    (Hfail : parse_mixed s = None) :
  year (with_year rec) = None /\
  group_key (with_year rec) = None /\
  (forall before after : list (option string),
     datetime_error (before ++ Some s :: after)
     = datetime_error (before ++ None :: after)) /\
  (is_observation rec = true ->
   forall obs, process_observations_run main = Ok obs ->
               In (with_year rec) obs) /\
  (forall pillars range u,
     ~ In (with_year rec)
          (filtered_obs_unit u (process_observations main) pillars range)) /\
  (forall pillars range u r,
     In r (filtered_obs_unit u (process_observations main) pillars range) ->
     exists d t,
       observation_date (raw r) = Some d /\ parse_mixed d = Some t /\
       year r = Some (ts_year t)) /\
  (forall forecast impact,
     year_column_error (filter is_observation main) = None ->
     year_column_error (filter is_event main) = None ->
     data_loaded (mkFiles (Ok main) (Ok forecast) (Ok impact)) = true).
Proof.
  assert (Hy : year (with_year rec) = None).
  { unfold with_year, to_datetime. simpl. rewrite Hdate, Hfail. reflexivity. }
  split; [exact Hy|].
  split.
  { unfold group_key. rewrite Hy.
    destruct (indicator_code (raw (with_year rec))); reflexivity. }
  split.
  { intros before after.
    rewrite <- (datetime_error_coerce (before ++ Some s :: after)).
    rewrite <- (datetime_error_coerce (before ++ None :: after)).
    rewrite !map_app. simpl. rewrite Hfail. reflexivity. }
  split.
  { intros Hobs obs Hrun. unfold process_observations_run in Hrun.
    destruct (year_column_error (filter is_observation main));
      [discriminate|].
    injection Hrun as <-. apply process_observations_In. exists rec. auto. }
  split.
  { intros pillars range u Hr.
    apply filter_In in Hr. destruct Hr as (_ & Hmask).
    apply trend_mask_spec in Hmask.
    destruct Hmask as (_ & (y & Hsome & _) & _). congruence. }
  split.
  { intros pillars range u r Hr.
    apply filter_In in Hr. destruct Hr as (Hobs & Hmask).
    apply trend_mask_spec in Hmask.
    destruct Hmask as (_ & (y & Hsome & _) & _).
    apply process_observations_In in Hobs.
    destruct Hobs as (rec' & _ & _ & ->).
    destruct (with_year_present rec' y Hsome) as (d & t & Hd & Ht & Hty).
    exists d, t. subst y.
    split; [exact Hd|]. split; [exact Ht | exact Hsome]. }
  intros forecast impact Ho He.
  unfold data_loaded, load_session, load_data.
  cbn [main_csv forecast_csv impact_csv].
  rewrite (process_tables_ok main forecast impact Ho He). reflexivity.
Qed.

(** The observation of [example_main] dated "mid-year round": the load
    of [example_files] succeeds with it. *)
Lemma unparseable_date_is_absent_year_witness :
  In unreadable_date example_main /\
  observation_date unreadable_date = Some "mid-year round" /\
  parse_mixed (Externals := example_io) "mid-year round" = None /\
  year (with_year (H := example_io) unreadable_date) = None /\
  group_key (with_year (H := example_io) unreadable_date) = None /\
  data_loaded example_files = true.
Proof.
  assert (Hin : In unreadable_date example_main)
    by (right; right; left; reflexivity).
  split; [exact Hin|].
  split; [reflexivity|].
  split; [reflexivity|].
  destruct (unparseable_date_is_absent_year (H := example_io)
              example_main unreadable_date "mid-year round"
              Hin eq_refl eq_refl) as (Hy & Hk & _ & _ & _ & _ & Hload).
  split; [exact Hy|]. split; [exact Hk|].
  apply (Hload example_forecast example_impact); reflexivity.
Defined.

(** ** C7 *)




(** ** C8 *)

Lemma isin_same_members (cell : option string) (p1 p2 : list string) :
  (forall x, In x p1 <-> In x p2) -> isin cell p1 = isin cell p2.
Proof.
  intro Hsame. apply eq_true_iff_eq. rewrite !isin_spec.
  split; intros (v & Hv & Hin); exists v; (split; [assumption|]);
    apply Hsame; assumption.
Qed.

(** C8. The Filter/Aggregate step is a function of the table, the pillar
    set, the year range and the unit: two evaluations on the same table
    with the same year range and unit and with pillar selections of the
    same members (in particular the same selection twice) produce the same
    sequence, hence equal outputs up to order. *)
Theorem filterAndAggregate_deterministic `{Externals}
    (observations : list Row) (p1 p2 : list string)
    (range : Z * Z) (u : string)
    (Hsame : forall x, In x p1 <-> In x p2) :
  filterAndAggregate observations p1 range u
  = filterAndAggregate observations p2 range u /\
  Permutation (filterAndAggregate observations p1 range u)
              (filterAndAggregate observations p2 range u).
Proof.
  assert (E : filterAndAggregate observations p1 range u
              = filterAndAggregate observations p2 range u).
  { unfold filterAndAggregate, filtered_obs_unit. f_equal.
    apply filter_ext. intro r. unfold trend_mask.
    rewrite (isin_same_members _ p1 p2 Hsame). reflexivity. }
  split; [exact E | rewrite E; apply Permutation_refl].
Qed.

(** The same two pillars, selected in two orders. *)
Lemma filterAndAggregate_deterministic_witness :
  (forall x, In x ["ACCESS"; "USAGE"] <-> In x ["USAGE"; "ACCESS"; "USAGE"]) /\
  filterAndAggregate (H := example_io) ownership_table ["ACCESS"; "USAGE"]
                     (2011, 2025)%Z "%"
  = filterAndAggregate (H := example_io) ownership_table
                       ["USAGE"; "ACCESS"; "USAGE"] (2011, 2025)%Z "%" /\
  Permutation
    (filterAndAggregate (H := example_io) ownership_table ["ACCESS"; "USAGE"]
                        (2011, 2025)%Z "%")
    (filterAndAggregate (H := example_io) ownership_table
                        ["USAGE"; "ACCESS"; "USAGE"] (2011, 2025)%Z "%").
Proof.
  assert (Hsame : forall x, In x ["ACCESS"; "USAGE"] <->
                            In x ["USAGE"; "ACCESS"; "USAGE"])
    by (intro x; simpl; tauto).
  split; [exact Hsame|].
  apply (filterAndAggregate_deterministic (H := example_io) ownership_table
           ["ACCESS"; "USAGE"] ["USAGE"; "ACCESS"; "USAGE"]
           (2011, 2025)%Z "%" Hsame).
Defined.

(** ** C9 *)

Lemma filtered_obs_no_pillar (u : string) (obs : list Row) (range : Z * Z) :
  filtered_obs_unit u obs [] range = [].
Proof.
  unfold filtered_obs_unit. induction obs as [|r rest IH]; simpl.
  - reflexivity.
  - unfold trend_mask at 1. unfold isin.
    destruct (pillar (raw r)); simpl; exact IH.
Qed.



(** ** C6 *)

Lemma record_type_exclusive (rec : Raw) :
  is_observation rec = true -> is_event rec = true -> False.
Proof.
  unfold is_observation, is_event. rewrite !cell_eqb_spec.
  intros H1 H2. rewrite H1 in H2. discriminate.
Qed.

Lemma filter_split_perm {A : Type} (f g : A -> bool) (l : list A) :
  (forall x, In x l -> g x = negb (f x)) ->
  Permutation l (filter f l ++ filter g l).
Proof.
  induction l as [|a t IH]; intro Hg; simpl.
  - apply perm_nil.
  - assert (IHt : Permutation t (filter f t ++ filter g t))
      by (apply IH; intros x Hx; apply Hg; right; assumption).
    rewrite (Hg a (or_introl eq_refl)).
    destruct (f a); simpl.
    + apply perm_skip, IHt.
    + apply Permutation_cons_app, IHt.
Qed.

Lemma raw_with_year `{Externals} (l : list Raw) : map raw (map with_year l) = l.
Proof. rewrite map_map. apply map_id. Qed.

Lemma nth_error_alloc_old (f : Frame) (st : Store) (i : nat) (g : Frame) :
  nth_error st i = Some g -> nth_error (st ++ [f]) i = Some g.
Proof.
  intro Hi. rewrite nth_error_app1; [assumption|].
  apply nth_error_Some. congruence.
Qed.

Lemma nth_error_alloc_new (f : Frame) (st : Store) :
  nth_error (st ++ [f]) (List.length st) = Some f.
Proof.
  rewrite nth_error_app2, Nat.sub_diag; [reflexivity | lia].
Qed.

Lemma update_cell_same (d : nat) (f : Frame) (st : Store) :
  (d < List.length st)%nat -> nth_error (update_cell d f st) d = Some f.
Proof.
  revert d. induction st as [|g rest IH]; intros [|d] Hd; simpl in *;
    try lia; [reflexivity|].
  apply IH. lia.
Qed.

Lemma update_cell_other (d i : nat) (f : Frame) (st : Store) :
  i <> d -> nth_error (update_cell d f st) i = nth_error st i.
Proof.
  revert d i. induction st as [|g rest IH]; intros [|d] [|i] Hne; simpl;
    try reflexivity; try congruence.
  apply IH. congruence.
Qed.

Lemma rows_of_assigned `{Externals} (rows : list Raw) :
  rows_of_frame
    (mkFrame rows
       (Some (map (fun r => dt_year (to_datetime (observation_date r))) rows)))
  = Some (map with_year rows).
Proof.
  unfold rows_of_frame. simpl. f_equal.
  induction rows as [|r rest IH]; simpl; [reflexivity|].
  rewrite IH. reflexivity.
Qed.

(** One run of [process_st]: the new frame sits at a fresh address, and
    every frame that was in the store is still there, unchanged. *)
Lemma process_st_spec `{Externals} (mask : Raw -> bool) (a : nat)
    (st : Store) (src : Frame) :
  nth_error st a = Some src ->
  exists (o : nat) (st' : Store),
    process_st mask a st = Some (o, st') /\
    nth_error st o = None /\
    (forall i g, nth_error st i = Some g -> nth_error st' i = Some g) /\
    rows_at st' o = Some (map with_year (filter mask (frame_rows src))).
Proof.
  intro Ha. unfold process_st, getitem_mask, copy, setitem_year, alloc.
  rewrite Ha. set (sel := select_frame mask src).
  rewrite (nth_error_alloc_new sel st).
  rewrite (nth_error_alloc_new sel (st ++ [sel])).
  eexists _, _. split; [reflexivity|].
  assert (Hlen : List.length (st ++ [sel]) = S (List.length st))
    by (rewrite length_app; simpl; lia).
  split.
  { rewrite Hlen. apply nth_error_None. lia. }
  split.
  { intros i g Hi. rewrite update_cell_other.
    - apply nth_error_alloc_old, nth_error_alloc_old. assumption.
    - rewrite Hlen. assert (i < List.length st)%nat; [|lia].
      apply nth_error_Some. congruence. }
  unfold rows_at. rewrite update_cell_same.
  - apply rows_of_assigned.
  - rewrite !length_app. simpl. lia.
Qed.



(** ** C5 *)

(** C5, as the specification states it, fails: on [example_files], with
    the default selection of the Trends page, the filter retains one row
    out of three observations, and the download is the export of all
    three, the row without a year among them, not the export of the
    retained row. *)
Lemma export_is_not_the_filtered_set :
  let c := mkControls Trends (2011, 2025)%Z ["ACCESS"; "USAGE"] in
  let obs := process_observations (H := example_io) example_main in
  let filtered := filtered_obs obs (selected_pillars c) (year_range c) in
  filtered = [with_year (H := example_io) access_2024] /\
  downloads (script example_files c)
  = [("ethiopia_fi_observations.csv", rows_export obs)] /\
  downloads (script example_files c)
  <> [("ethiopia_fi_observations.csv", rows_export filtered)] /\
  In (with_year (H := example_io) unreadable_date) obs /\
  year (with_year (H := example_io) unreadable_date) = None.
Proof.
  intros c obs filtered.
  split; [reflexivity|].
  split; [reflexivity|].
  split; [intro E; vm_compute in E; discriminate E|].
  split; [right; left; reflexivity | reflexivity].
Qed.

Lemma filter_twice {A : Type} (f : A -> bool) (l : list A) :
  filter f (filter f l) = filter f l.
Proof.
  induction l as [|a t IH]; simpl; [reflexivity|].
  destruct (f a) eqn:Hf; simpl; rewrite ?Hf, IH; reflexivity.
Qed.

Lemma no_event_among_observations (main : list Raw) :
  filter is_event (filter is_observation main) = [].
Proof.
  induction main as [|r rest IH]; simpl; [reflexivity|].
  destruct (is_observation r) eqn:Ho; simpl; [|exact IH].
  destruct (is_event r) eqn:He; [|exact IH].
  exfalso. exact (record_type_exclusive r Ho He).
Qed.

(** C5, amended. For every loaded table set and every filter state, the
    download of the Trends page is the export of the whole observation
    table, rows without a year included, whatever the pillar selection
    and the year range, with no other transformation; the downloads of
    the Forecasts and Projections pages are the exports of the whole
    forecast table and impact matrix.  The filter state changes no
    download.  Re-loading the exported observation file through the
    Loader, in place of the main file, yields the whole in-memory
    observation table, row for row and column for column, the year column
    derived anew, and no event, for a reader that gives back the cells
    the writer was given. *)
Theorem downloads_export_whole_tables `{Externals}
    (fs : Files) (s : Session)
    (Hload : load_session fs = Ok s) :
  (forall range pillars,
     downloads (script fs (mkControls Trends range pillars))
     = [("ethiopia_fi_observations.csv", to_csv (observations s))]) /\
  (forall range pillars,
     downloads (script fs (mkControls Forecasts range pillars))
     = [("ethiopia_fi_forecasts_2025_2027.csv",
         forecast_to_csv (forecast_data s))]) /\
  (forall range pillars,
     downloads (script fs (mkControls Projections range pillars))
     = [("ethiopia_fi_forecasts.csv", forecast_to_csv (forecast_data s));
        ("event_impact_matrix.csv", impact_to_csv (impact_matrix s))]) /\
  (forall c c', page c = page c' ->
     downloads (script fs c) = downloads (script fs c')) /\
  (forall read_csv : CSV -> result (list Raw),
     (forall t, read_csv (to_csv t) = Ok (map raw t)) ->
     exists reloaded,
       load_session (mkFiles (read_csv (to_csv (observations s)))
                             (forecast_csv fs) (impact_csv fs))
       = Ok reloaded /\
       observations reloaded = observations s /\
       events reloaded = []).
Proof.
  assert (HT : forall range pillars,
            downloads (script fs (mkControls Trends range pillars))
            = [("ethiopia_fi_observations.csv", to_csv (observations s))]).
  { intros range pillars. unfold script. rewrite Hload.
    unfold page_body, trends_section. simpl.
    destruct (0 <? List.length _)%nat; reflexivity. }
  split; [exact HT|].
  split; [intros; unfold script; rewrite Hload; reflexivity|].
  split; [intros; unfold script; rewrite Hload; reflexivity|].
  split.
  { intros [p range pillars] [p' range' pillars'] Hp. simpl in Hp. subst p'.
    destruct p; try (unfold script; rewrite Hload; reflexivity).
    rewrite !HT. reflexivity. }
  intros read_csv Hback.
  unfold load_session in Hload.
  destruct (load_data fs) as [[[main forecast] impact]|e] eqn:Hdata;
    [|discriminate].
  apply load_data_ok in Hdata. destruct Hdata as (_ & Hf & Hi).
  apply process_tables_inv in Hload. destruct Hload as (-> & Ho & _).
  cbn [observations].
  assert (Hraw : map raw (process_observations main)
                 = filter is_observation main) by apply raw_with_year.
  eexists. split.
  { unfold load_session, load_data. cbn [main_csv forecast_csv impact_csv].
    rewrite Hback, Hf, Hi, Hraw.
    apply process_tables_ok.
    - rewrite filter_twice. exact Ho.
    - rewrite no_event_among_observations. apply datetime_error_empty. }
  cbn [observations events]. split.
  - unfold process_observations. rewrite filter_twice. reflexivity.
  - unfold process_events. rewrite no_event_among_observations. reflexivity.
Qed.

(** The three files of [example_files], read back with
    [example_read_csv]. *)
Lemma downloads_export_whole_tables_witness :
  let s := mkSession (H := example_io) example_main example_forecast
             example_impact
             (process_observations (H := example_io) example_main)
             (process_events (H := example_io) example_main) in
  load_session example_files = Ok s /\
  (forall t, example_read_csv (rows_export t) = Ok (map raw t)) /\
  exists reloaded,
    load_session (mkFiles (example_read_csv (rows_export (observations s)))
                          (forecast_csv example_files)
                          (impact_csv example_files))
    = Ok reloaded /\
    observations reloaded = observations s /\
    events reloaded = [].
Proof.
  intro s.
  assert (Hload : load_session example_files = Ok s) by reflexivity.
  assert (Hback : forall t, example_read_csv (rows_export t) = Ok (map raw t))
    by reflexivity.
  split; [exact Hload|]. split; [exact Hback|].
  destruct (downloads_export_whole_tables (H := example_io)
              example_files s Hload) as (_ & _ & _ & _ & Hround).
  exact (Hround example_read_csv Hback).
Defined.

(** * Further properties of the code *)

(** ** The row filter under changes of the selection *)

Lemma filter_absorb {A : Type} (f g : A -> bool) (l : list A) :
  (forall x, In x l -> f x = true -> g x = true) ->
  filter f (filter g l) = filter f l.
Proof.
  induction l as [|a t IH]; intro Himp; simpl; [reflexivity|].
  assert (IHt : filter f (filter g t) = filter f t)
    by (apply IH; intros x Hx; apply Himp; right; assumption).
  destruct (g a) eqn:Hg; simpl.
  - rewrite IHt. reflexivity.
  - destruct (f a) eqn:Hf; [|exact IHt].
    rewrite (Himp a (or_introl eq_refl) Hf) in Hg. discriminate.
Qed.

Lemma trend_mask_wider (u : string) (p1 p2 : list string) (r1 r2 : Z * Z)
    (row : Row) :
  (forall x, In x p1 -> In x p2) ->
  (fst r2 <= fst r1)%Z -> (snd r1 <= snd r2)%Z ->
  trend_mask u p1 r1 row = true -> trend_mask u p2 r2 row = true.
Proof.
  intros Hp Hlo Hhi. rewrite !trend_mask_spec.
  intros ((p & Hpil & Hin) & (y & Hy & Hb) & Hu).
  split; [exists p; auto|]. split; [exists y; split; [assumption | lia]|].
  assumption.
Qed.

(** X1. A selection with fewer pillars and a narrower year range retains
    only rows that the wider selection retains, and filtering the wider
    result again with the narrower selection gives what the narrower
    selection gives on the table. *)
Theorem filtered_obs_narrowing
    (u : string) (obs : list Row) (p1 p2 : list string) (r1 r2 : Z * Z)
    (Hp : forall x, In x p1 -> In x p2)
    (Hlo : (fst r2 <= fst r1)%Z)
    (Hhi : (snd r1 <= snd r2)%Z) :
  incl (filtered_obs_unit u obs p1 r1) (filtered_obs_unit u obs p2 r2) /\
  filtered_obs_unit u (filtered_obs_unit u obs p2 r2) p1 r1
  = filtered_obs_unit u obs p1 r1.
Proof.
  unfold filtered_obs_unit. split.
  - intros row Hrow. apply filter_In in Hrow. apply filter_In.
    split; [tauto|]. apply (trend_mask_wider u p1 p2 r1 r2); tauto.
  - apply filter_absorb. intros row _.
    apply trend_mask_wider; assumption.
Qed.

Lemma filtered_obs_narrowing_witness :
  (forall x, In x ["ACCESS"] -> In x ["ACCESS"; "USAGE"]) /\
  (fst (2011, 2025) <= fst (2014, 2021))%Z /\
  (snd (2014, 2021) <= snd (2011, 2025))%Z /\
  incl (filtered_obs_unit "%" ownership_table ["ACCESS"] (2014, 2021)%Z)
       (filtered_obs_unit "%" ownership_table ["ACCESS"; "USAGE"]
                          (2011, 2025)%Z) /\
  filtered_obs_unit "%"
    (filtered_obs_unit "%" ownership_table ["ACCESS"; "USAGE"] (2011, 2025)%Z)
    ["ACCESS"] (2014, 2021)%Z
  = filtered_obs_unit "%" ownership_table ["ACCESS"] (2014, 2021)%Z.
Proof.
  assert (Hp : forall x, In x ["ACCESS"] -> In x ["ACCESS"; "USAGE"])
    by (intros x [<-|[]]; left; reflexivity).
  assert (Hlo : (fst (2011, 2025) <= fst (2014, 2021))%Z) by (simpl; lia).
  assert (Hhi : (snd (2014, 2021) <= snd (2011, 2025))%Z) by (simpl; lia).
  split; [exact Hp|]. split; [exact Hlo|]. split; [exact Hhi|].
  apply (filtered_obs_narrowing "%" ownership_table ["ACCESS"]
           ["ACCESS"; "USAGE"] (2014, 2021)%Z (2011, 2025)%Z Hp Hlo Hhi).
Defined.

(** X2. A year range whose lower bound is above its upper bound retains
    no row, whatever the table, the pillars and the unit; the Trends page
    then shows its message, not a chart. *)
Theorem inverted_year_range_retains_nothing `{Externals}
    (obs : list Row) (pillars : list string) (range : Z * Z) (u : string)
    (Hinv : (snd range < fst range)%Z) :
  filtered_obs_unit u obs pillars range = [] /\
  filterAndAggregate obs pillars range u = [] /\
  trends_section obs pillars range = st_info.
Proof.
  assert (E : forall v, filtered_obs_unit v obs pillars range = []).
  { intro v. unfold filtered_obs_unit.
    induction obs as [|r rest IH]; simpl; [reflexivity|].
    destruct (trend_mask v pillars range r) eqn:Hm; [|exact IH].
    apply trend_mask_spec in Hm. destruct Hm as (_ & (y & _ & Hb) & _). lia. }
  split; [apply E|].
  split.
  - unfold filterAndAggregate. rewrite E. reflexivity.
  - unfold trends_section, filtered_obs. rewrite E. reflexivity.
Qed.

Lemma inverted_year_range_retains_nothing_witness :
  (snd (2025, 2011) < fst (2025, 2011))%Z /\
  filtered_obs_unit "%" ownership_table ["ACCESS"; "USAGE"] (2025, 2011)%Z
  = [] /\
  filterAndAggregate (H := example_io) ownership_table ["ACCESS"; "USAGE"]
                     (2025, 2011)%Z "%"
  = [] /\
  trends_section (H := example_io) ownership_table ["ACCESS"; "USAGE"]
                 (2025, 2011)%Z
  = st_info.
Proof.
  assert (Hinv : (snd (2025, 2011) < fst (2025, 2011))%Z) by (simpl; lia).
  split; [exact Hinv|].
  apply (inverted_year_range_retains_nothing (H := example_io)
           ownership_table ["ACCESS"; "USAGE"] (2025, 2011)%Z "%" Hinv).
Defined.

(** ** The groups of the aggregation *)

Lemma concat_map_app_perm {A B : Type} (f g : A -> list B) (ks : list A) :
  Permutation (List.concat (map (fun k => f k ++ g k) ks))
              (List.concat (map f ks) ++ List.concat (map g ks)).
Proof.
  induction ks as [|k rest IH]; simpl; [apply perm_nil|].
  rewrite <- !app_assoc. apply Permutation_app_head.
  eapply perm_trans; [apply Permutation_app_head, IH|].
  apply Permutation_app_swap_app.
Qed.

Lemma concat_map_nil {A B : Type} (ks : list A) :
  List.concat (map (fun _ : A => @nil B) ks) = [].
Proof. induction ks as [|k rest IH]; simpl; assumption || reflexivity. Qed.

Lemma row_in_no_group (r : Row) (ks : list Key) :
  (forall k, In k ks -> in_group k r = false) ->
  List.concat (map (fun k => if in_group k r then [r] else []) ks) = [].
Proof.
  induction ks as [|k rest IH]; intro Hno; simpl; [reflexivity|].
  rewrite (Hno k (or_introl eq_refl)). simpl.
  apply IH. intros k' Hk'. apply Hno. right. assumption.
Qed.

Lemma row_in_one_group (r : Row) (k0 : Key) (ks : list Key) :
  group_key r = Some k0 -> NoDup ks -> In k0 ks ->
  List.concat (map (fun k => if in_group k r then [r] else []) ks) = [r].
Proof.
  intros Hk Hnd. induction Hnd as [|k rest Hnotin Hnd IH]; intro Hin.
  - contradiction.
  - simpl. destruct (in_group k r) eqn:Hg.
    + apply in_group_spec in Hg. assert (k = k0) by congruence. subst k.
      rewrite row_in_no_group; [reflexivity|].
      intros k' Hk'. destruct (in_group k' r) eqn:Hg'; [|reflexivity].
      apply in_group_spec in Hg'. assert (k' = k0) by congruence.
      subst k'. contradiction.
    + destruct Hin as [->|Hin].
      * apply in_group_spec in Hk. congruence.
      * simpl. apply IH. assumption.
Qed.

Lemma groups_cover (ks : list Key) (rows : list Row) :
  NoDup ks ->
  (forall r k, In r rows -> group_key r = Some k -> In k ks) ->
  Permutation (filter has_key rows)
              (List.concat (map (fun k => filter (in_group k) rows) ks)).
Proof.
  intros Hnd. induction rows as [|r rest IH]; intro Hcover.
  - simpl. rewrite concat_map_nil. apply perm_nil.
  - assert (IHrest : Permutation (filter has_key rest)
              (List.concat (map (fun k => filter (in_group k) rest) ks)))
      by (apply IH; intros x k Hx; apply Hcover; right; assumption).
    rewrite (map_ext (fun k => filter (in_group k) (r :: rest))
               (fun k => (if in_group k r then [r] else [])
                         ++ filter (in_group k) rest))
      by (intro k; simpl; destruct (in_group k r); reflexivity).
    eapply perm_trans; [|apply Permutation_sym, concat_map_app_perm].
    simpl. unfold has_key at 1.
    destruct (group_key r) as [k0|] eqn:Hk.
    + rewrite (row_in_one_group r k0 ks Hk Hnd
                 (Hcover r k0 (or_introl eq_refl) Hk)).
      simpl. apply perm_skip, IHrest.
    + rewrite row_in_no_group; [exact IHrest|].
      intros k _. unfold in_group. rewrite Hk. reflexivity.
Qed.

(** X3. Grouping is a partition of the rows that have a key: the groups,
    put end to end, are those rows up to order; no row is in two groups;
    no group is empty. *)
Theorem groups_partition_keyed_rows `{Externals} (filtered : list Row) :
  Permutation (filter has_key filtered) (List.concat (groups filtered)) /\
  (forall k1 k2 r,
     In r (filter (in_group k1) filtered) ->
     In r (filter (in_group k2) filtered) -> k1 = k2) /\
  (forall g, In g (groups filtered) -> g <> []) /\
  List.length (groups filtered) = List.length (trend_data filtered).
Proof.
  split.
  { unfold groups. apply groups_cover.
    - apply sorted_keys_NoDup, group_keys_sorted.
    - intros r k Hr Hk. apply group_keys_In. exists r. auto. }
  split.
  { intros k1 k2 r H1 H2. apply filter_In in H1, H2.
    destruct H1 as (_ & H1). destruct H2 as (_ & H2).
    apply in_group_spec in H1, H2. congruence. }
  split.
  { intros g Hg. unfold groups in Hg. apply in_map_iff in Hg.
    destruct Hg as (k & <- & Hk). apply group_keys_In in Hk.
    destruct Hk as (r & Hr & Hkr). intro Hnil.
    assert (Hin : In r (filter (in_group k) filtered))
      by (apply filter_In; split; [assumption | apply in_group_spec, Hkr]).
    rewrite Hnil in Hin. contradiction. }
  unfold groups, trend_data. rewrite !length_map. reflexivity.
Qed.

Lemma insert_key_length (k : Key) (ks : list Key) :
  (List.length (insert_key k ks) <= S (List.length ks))%nat.
Proof.
  induction ks as [|k' rest IH]; simpl; [lia|].
  destruct (key_compare k k'); simpl; lia.
Qed.

Lemma group_keys_length (rows : list Row) :
  (List.length (group_keys rows) <= List.length (filter has_key rows))%nat.
Proof.
  induction rows as [|r rest IH]; simpl; [lia|].
  replace (has_key r)
    with (match group_key r with Some _ => true | None => false end)
    by reflexivity.
  destruct (group_key r) as [k|]; simpl; [|exact IH].
  pose proof (insert_key_length k (group_keys rest)). lia.
Qed.

(** X4. The aggregate never has more rows than the filtered frame has
    rows with a key, and it is empty exactly when no filtered row has one.
    On the Trends page, a selection that retains rows none of which has an
    indicator code gives a chart without points, not the message. *)
Theorem trend_data_size `{Externals} (filtered : list Row) :
  (List.length (trend_data filtered)
   <= List.length (filter has_key filtered))%nat /\
  (List.length (trend_data filtered) <= List.length filtered)%nat /\
  (trend_data filtered = [] <->
   forall r, In r filtered -> group_key r = None) /\
  (forall obs pillars range,
     filtered_obs obs pillars range = filtered ->
     filtered <> [] ->
     (forall r, In r filtered -> group_key r = None) ->
     trends_section obs pillars range = trend_chart [] /\
     trends_section obs pillars range <> st_info).
Proof.
  assert (Hlen : List.length (trend_data filtered)
                 = List.length (group_keys filtered))
    by (unfold trend_data; apply length_map).
  assert (Hempty : trend_data filtered = [] <->
                   forall r, In r filtered -> group_key r = None).
  { split.
    - intros Hnil r Hr.
      destruct (group_key r) as [k|] eqn:Hk; [|reflexivity].
      assert (Hin : In k (group_keys filtered))
        by (apply group_keys_In; exists r; auto).
      rewrite <- trend_data_keys, Hnil in Hin. contradiction.
    - intro Hnone.
      destruct (trend_data filtered) as [|[k m] rest] eqn:Ht; [reflexivity|].
      assert (Hin : In k (group_keys filtered))
        by (rewrite <- trend_data_keys, Ht; left; reflexivity).
      apply group_keys_In in Hin. destruct Hin as (r & Hr & Hk).
      rewrite (Hnone r Hr) in Hk. discriminate. }
  split; [rewrite Hlen; apply group_keys_length|].
  split.
  { rewrite Hlen. pose proof (group_keys_length filtered).
    pose proof (filter_length_le has_key filtered). lia. }
  split; [exact Hempty|].
  intros obs pillars range Hfiltered Hne Hnone.
  unfold trends_section. rewrite Hfiltered.
  rewrite (proj2 Hempty Hnone).
  destruct filtered as [|r rest]; [congruence|].
  simpl. split; [reflexivity | discriminate].
Qed.

(** ** The aggregate and the order of the rows *)

Lemma sorted_keys_unique (l1 l2 : list Key) :
  StronglySorted key_lt l1 -> StronglySorted key_lt l2 ->
  (forall k, In k l1 <-> In k l2) -> l1 = l2.
Proof.
  revert l2. induction l1 as [|a t1 IH]; intros l2 H1 H2 Hsame.
  - destruct l2 as [|b t2]; [reflexivity|].
    destruct (proj2 (Hsame b) (or_introl eq_refl)).
  - destruct l2 as [|b t2].
    + destruct (proj1 (Hsame a) (or_introl eq_refl)).
    + apply StronglySorted_inv in H1. destruct H1 as [Ht1 Ha].
      apply StronglySorted_inv in H2. destruct H2 as [Ht2 Hb].
      rewrite Forall_forall in Ha, Hb.
      assert (Hab : a = b).
      { destruct (proj1 (Hsame a) (or_introl eq_refl)) as [E|Hin_a];
          [congruence|].
        destruct (proj2 (Hsame b) (or_introl eq_refl)) as [E|Hin_b];
          [congruence|].
        exfalso. apply (key_lt_irrefl a).
        eapply key_lt_trans; [apply Ha | apply Hb]; assumption. }
      subst b. f_equal. apply IH; try assumption.
      intro k. split; intro Hk.
      * destruct (proj1 (Hsame k) (or_intror Hk)) as [E|Hk2]; [|assumption].
        subst k. exfalso. exact (key_lt_irrefl a (Ha a Hk)).
      * destruct (proj2 (Hsame k) (or_intror Hk)) as [E|Hk1]; [|assumption].
        subst k. exfalso. exact (key_lt_irrefl a (Hb a Hk)).
Qed.

Lemma group_keys_perm (l l' : list Row) :
  Permutation l l' -> group_keys l = group_keys l'.
Proof.
  intro Hp. apply sorted_keys_unique; try apply group_keys_sorted.
  intro k. rewrite !group_keys_In.
  split; intros (r & Hr & Hk); exists r; (split; [|assumption]).
  - eapply Permutation_in; eassumption.
  - eapply Permutation_in; [apply Permutation_sym|]; eassumption.
Qed.

Lemma filter_perm {A : Type} (f : A -> bool) (l l' : list A) :
  Permutation l l' -> Permutation (filter f l) (filter f l').
Proof.
  induction 1 as [|x l l' Hp IH|x y l|l l' l'' H1 IH1 H2 IH2]; simpl.
  - apply perm_nil.
  - destruct (f x); [apply perm_skip|]; assumption.
  - destruct (f x), (f y); try apply Permutation_refl. apply perm_swap.
  - eapply perm_trans; eassumption.
Qed.

Lemma non_absent_perm (vs vs' : list (option Q)) :
  Permutation vs vs' -> Permutation (non_absent vs) (non_absent vs').
Proof.
  induction 1 as [|x l l' Hp IH|x y l|l l' l'' H1 IH1 H2 IH2]; simpl.
  - apply perm_nil.
  - destruct x; [apply perm_skip|]; assumption.
  - destruct x, y; try apply Permutation_refl. apply perm_swap.
  - eapply perm_trans; eassumption.
Qed.

(** X5. Which groups the aggregate has, and what each group averages,
    do not depend on the order of the rows of the frame: two frames with
    the same rows give the same keys in the same order, and each group
    holds the same values up to order; only the float rounding of a mean
    can differ.  The same holds after the filter, and the Trends page
    shows the message for one table exactly when it does for the other. *)
Theorem trend_data_row_order `{Externals} (rows rows' : list Row)
    (Hperm : Permutation rows rows') :
  map fst (trend_data rows) = map fst (trend_data rows') /\
  (forall k, Permutation (group_values k rows) (group_values k rows')) /\
  (forall k, Permutation (non_absent (group_values k rows))
                         (non_absent (group_values k rows'))) /\
  (forall pillars range u,
     map fst (filterAndAggregate rows pillars range u)
     = map fst (filterAndAggregate rows' pillars range u)) /\
  (forall pillars range,
     trends_section rows pillars range = st_info <->
     trends_section rows' pillars range = st_info).
Proof.
  assert (Hvalues : forall k l l', Permutation l l' ->
            Permutation (group_values k l) (group_values k l')).
  { intros k l l' Hp. unfold group_values.
    apply Permutation_map, filter_perm, Hp. }
  split.
  { rewrite !trend_data_keys. apply group_keys_perm, Hperm. }
  split; [intro k; apply Hvalues, Hperm|].
  split; [intro k; apply non_absent_perm, Hvalues, Hperm|].
  split.
  { intros pillars range u. unfold filterAndAggregate, filtered_obs_unit.
    rewrite !trend_data_keys. apply group_keys_perm, filter_perm, Hperm. }
  intros pillars range. unfold trends_section, filtered_obs.
  assert (Hf : Permutation (filtered_obs_unit "%" rows pillars range)
                           (filtered_obs_unit "%" rows' pillars range))
    by apply filter_perm, Hperm.
  rewrite (Permutation_length Hf).
  destruct (0 <? List.length (filtered_obs_unit "%" rows' pillars range))%nat;
    split; congruence.
Qed.

Lemma trend_data_row_order_witness :
  Permutation mixed_group_table (rev mixed_group_table) /\
  map fst (trend_data (H := example_io) mixed_group_table)
  = map fst (trend_data (H := example_io) (rev mixed_group_table)).
Proof.
  assert (Hperm : Permutation mixed_group_table (rev mixed_group_table))
    by apply Permutation_rev.
  split; [exact Hperm|].
  apply (trend_data_row_order (H := example_io) mixed_group_table
           (rev mixed_group_table) Hperm).
Defined.

(** ** The latest-value selector *)

Lemma sorted_before_last {A : Type} (R : A -> A -> Prop) (l : list A) (a : A) :
  StronglySorted R (l ++ [a]) -> Forall (fun x => R x a) l.
Proof.
  induction l as [|h t IH]; simpl; intro Hs; [constructor|].
  apply StronglySorted_inv in Hs. destruct Hs as [Ht Hall].
  constructor; [|apply IH; assumption].
  rewrite Forall_forall in Hall. apply Hall.
  apply in_or_app. right. left. reflexivity.
Qed.

(** X7. When one matching row has a year above the year of every other
    matching row, the value returned as current is the value of that
    row, wherever the row stands in the table. *)
Theorem latest_is_row_of_greatest_year
    (observations : list Row) (code g : string) (r : Row) (y : Z)
    (Hin : In r observations)
    (Hmatch : selector_mask code g r = true)
    (Hyear : year r = Some y)
    (Hmax : forall x, In x observations -> selector_mask code g x = true ->
              x = r \/ exists y', year x = Some y' /\ (y' < y)%Z) :
  fst (latestAndPrevious observations code g) = Some (value_numeric (raw r)).
Proof.
  assert (Hrf : In r (select_sorted code g observations)).
  { apply select_sorted_In. split; [assumption|].
    apply selector_mask_spec. assumption. }
  destruct (exists_last (l := select_sorted code g observations))
    as (front & a & Hframe).
  { intro Hnil. rewrite Hnil in Hrf. contradiction. }
  rewrite (latest_last _ _ _ front a Hframe).
  assert (Ha : In a (select_sorted code g observations)).
  { rewrite Hframe. apply in_or_app. right. left. reflexivity. }
  apply select_sorted_In in Ha. destruct Ha as (Hao & Hacode).
  apply selector_mask_spec in Hacode.
  destruct (Hmax a Hao Hacode) as [->|(y' & Hy' & Hlt)]; [reflexivity|].
  exfalso.
  rewrite Hframe in Hrf. apply in_app_or in Hrf.
  destruct Hrf as [Hfront|[E|[]]].
  - pose proof (sort_values_year_sorted
                  (filter (selector_mask code g) observations)) as Hs.
    fold (select_sorted code g observations) in Hs. rewrite Hframe in Hs.
    apply sorted_before_last in Hs. rewrite Forall_forall in Hs.
    specialize (Hs r Hfront). unfold year_order, ordered_by in Hs.
    rewrite Hyear, Hy' in Hs. simpl in Hs. apply Z.leb_le in Hs. lia.
  - subst a. rewrite Hyear in Hy'. injection Hy' as <-. lia.
Qed.

Lemma latest_is_row_of_greatest_year_witness :
  let r := obs_row "ACC_OWNERSHIP" "ACCESS" "all" "%" (Some 2024%Z)
                   (Some 49%Q) in
  In r ownership_table /\
  selector_mask "ACC_OWNERSHIP" "all" r = true /\
  year r = Some 2024%Z /\
  fst (latestAndPrevious ownership_table "ACC_OWNERSHIP" "all")
  = Some (value_numeric (raw r)).
Proof.
  intro r.
  assert (Hin : In r ownership_table)
    by (do 4 right; left; reflexivity).
  split; [exact Hin|]. split; [reflexivity|]. split; [reflexivity|].
  apply (latest_is_row_of_greatest_year ownership_table "ACC_OWNERSHIP"
           "all" r 2024%Z Hin eq_refl eq_refl).
  intros x Hx Hm.
  destruct Hx as [<-|[<-|[<-|[<-|[<-|[<-|[<-|[]]]]]]]];
    try discriminate Hm;
    try (left; reflexivity);
    right; eexists; (split; [reflexivity | lia]).
Defined.

(** X8. When no two matching rows share a year (and at most one lacks a
    year), the selector does not depend on the order of the rows of the
    table. *)
Theorem latestAndPrevious_row_order
    (observations observations' : list Row) (code g : string)
    (Hperm : Permutation observations observations')
    (Hdistinct :
       NoDup (map year (filter (selector_mask code g) observations))) :
  select_sorted code g observations = select_sorted code g observations' /\
  latestAndPrevious observations code g
  = latestAndPrevious observations' code g.
Proof.
  assert (E : select_sorted code g observations
              = select_sorted code g observations').
  { apply (sorted_perm_unique year).
    - apply sort_values_year_sorted.
    - apply sort_values_year_sorted.
    - eapply perm_trans; [apply select_sorted_perm|].
      eapply perm_trans; [apply filter_perm, Hperm|].
      apply Permutation_sym, select_sorted_perm.
    - eapply Permutation_NoDup; [|exact Hdistinct].
      apply Permutation_map, Permutation_sym, select_sorted_perm. }
  split; [exact E|]. unfold latestAndPrevious. rewrite E. reflexivity.
Qed.

Lemma latestAndPrevious_row_order_witness :
  Permutation ownership_table (rev ownership_table) /\
  NoDup (map year (filter (selector_mask "ACC_OWNERSHIP" "all")
                          ownership_table)) /\
  latestAndPrevious ownership_table "ACC_OWNERSHIP" "all"
  = latestAndPrevious (rev ownership_table) "ACC_OWNERSHIP" "all".
Proof.
  assert (Hperm : Permutation ownership_table (rev ownership_table))
    by apply Permutation_rev.
  assert (Hdistinct :
            NoDup (map year (filter (selector_mask "ACC_OWNERSHIP" "all")
                                    ownership_table))).
  { simpl. repeat (constructor; [simpl; intuition discriminate|]).
    constructor. }
  split; [exact Hperm|]. split; [exact Hdistinct|].
  apply (latestAndPrevious_row_order ownership_table (rev ownership_table)
           "ACC_OWNERSHIP" "all" Hperm Hdistinct).
Defined.

Lemma last_two_rows {A : Type} (l : list A) :
  (2 <= List.length l)%nat -> exists front b a, l = front ++ [b; a].
Proof.
  intro Hlen.
  destruct (exists_last (l := l)) as (l1 & a & ->).
  { intros ->. simpl in Hlen. lia. }
  destruct (exists_last (l := l1)) as (front & b & ->).
  { intros ->. simpl in Hlen. lia. }
  exists front, b, a. rewrite <- app_assoc. reflexivity.
Qed.

(** X9. The literals 49.0 and 46.0 of the account-ownership metric are
    used only when rows are missing: with no matching row both are shown;
    with one matching row its value is current and 46.0 is previous; with
    two or more, current and previous are both [value_numeric] cells of
    matching rows of the table. *)
Theorem account_metric_literals (obs : list Row) :
  let matching := filter (selector_mask "ACC_OWNERSHIP" "all") obs in
  (matching = [] ->
   current_acc obs = Some 49%Q /\ prev_acc obs = Some 46%Q) /\
  (forall a, matching = [a] ->
   current_acc obs = value_numeric (raw a) /\ prev_acc obs = Some 46%Q) /\
  ((2 <= List.length matching)%nat ->
   exists a b,
     In a matching /\ In b matching /\
     current_acc obs = value_numeric (raw a) /\
     prev_acc obs = value_numeric (raw b)).
Proof.
  intro matching.
  assert (Hperm : Permutation (acc_ownership obs) matching)
    by apply select_sorted_perm.
  split.
  { intro Hnil. apply current_acc_fallback.
    rewrite Hnil in Hperm. apply Permutation_sym, Permutation_nil in Hperm.
    exact Hperm. }
  split.
  { intros a Ha. apply prev_acc_fallback.
    rewrite Ha in Hperm. apply Permutation_sym, Permutation_length_1_inv in Hperm.
    exact Hperm. }
  intro Hlen.
  destruct (last_two_rows (acc_ownership obs)) as (front & b & a & Hframe).
  { rewrite (Permutation_length Hperm). exact Hlen. }
  exists a, b.
  assert (Hin : forall x, In x [b; a] -> In x matching).
  { intros x Hx. apply (Permutation_in x Hperm). rewrite Hframe.
    apply in_or_app. right. assumption. }
  split; [apply Hin; right; left; reflexivity|].
  split; [apply Hin; left; reflexivity|].
  unfold current_acc, prev_acc.
  rewrite (latestAndPrevious_two obs _ _ front b a Hframe).
  split; reflexivity.
Qed.

(** ** The data summary of the Overview page *)

Lemma exclusive_filters_length {A : Type} (f g : A -> bool) (l : list A) :
  (forall x, f x = true -> g x = true -> False) ->
  (List.length (filter f l) + List.length (filter g l) <= List.length l)%nat /\
  ((List.length (filter f l) + List.length (filter g l))%nat = List.length l <->
   forall x, In x l -> f x = true \/ g x = true).
Proof.
  intro Hex. induction l as [|a t [IHle IHeq]]; simpl.
  - split; [lia|]. split; [contradiction | reflexivity].
  - destruct (f a) eqn:Hf, (g a) eqn:Hg; simpl.
    + exfalso. exact (Hex a Hf Hg).
    + split; [lia|]. split.
      * intros E x [<-|Hx]; [auto|]. apply IHeq; [lia | assumption].
      * intro Hall. apply eq_S, IHeq. intros x Hx. apply Hall. auto.
    + split; [lia|]. split.
      * intros E x [<-|Hx]; [auto|]. apply IHeq; [lia | assumption].
      * intro Hall. rewrite Nat.add_succ_r. apply eq_S, IHeq.
        intros x Hx. apply Hall. auto.
    + split; [lia|]. split.
      * intro E. lia.
      * intro Hall.
        destruct (Hall a (or_introl eq_refl)); congruence.
Qed.

(** X10. The three numbers of the Data Coverage panel: observations and
    events together are never more than the records of the table, and
    they add up to the total exactly when every record is of type
    observation or event; a record of another type, or without a type, is
    counted in the total only. *)
Theorem coverage_counts `{Externals} (main : list Raw) :
  (List.length (process_observations main)
   + List.length (process_events main) <= List.length main)%nat /\
  ((List.length (process_observations main)
    + List.length (process_events main))%nat = List.length main <->
   forall rec, In rec main ->
     record_type rec = Some "observation" \/ record_type rec = Some "event").
Proof.
  unfold process_observations, process_events. rewrite !length_map.
  destruct (exclusive_filters_length is_observation is_event main
              record_type_exclusive) as [Hle Heq].
  split; [exact Hle|]. rewrite Heq.
  unfold is_observation, is_event.
  split; intros Hall rec Hin; specialize (Hall rec Hin);
    rewrite !cell_eqb_spec in *; exact Hall.
Qed.

Lemma unique_values_In (column : list (option string)) (v : string) :
  In v (unique_values column) <-> In (Some v) column.
Proof.
  induction column as [|[x|] rest IH]; simpl.
  - reflexivity.
  - rewrite filter_In, IH, negb_true_iff, String.eqb_neq.
    destruct (String.eqb_spec v x) as [->|Hne].
    + split; auto.
    + split.
      * intros [E|[Hin _]]; [congruence | auto].
      * intros [E|Hin]; [congruence | auto].
  - rewrite IH. split; [auto | intros [E|Hin]; [discriminate | assumption]].
Qed.

Lemma unique_values_NoDup (column : list (option string)) :
  NoDup (unique_values column).
Proof.
  induction column as [|[x|] rest IH]; simpl.
  - constructor.
  - constructor.
    + rewrite filter_In, negb_true_iff, String.eqb_neq. tauto.
    + apply NoDup_filter. assumption.
  - assumption.
Qed.

Lemma count_value_positive (column : list (option string)) (v : string) :
  (0 < count_value v column)%nat <-> In (Some v) column.
Proof.
  unfold count_value. induction column as [|c rest IH]; simpl.
  - split; [lia | contradiction].
  - destruct (cell_eqb c v) eqn:Hc; simpl.
    + apply cell_eqb_spec in Hc. split; [auto | lia].
    + rewrite IH. split; [auto|].
      intros [E|Hin]; [|assumption].
      apply cell_eqb_spec in E. congruence.
Qed.

Lemma insert_count_perm (e : string * nat) (l : list (string * nat)) :
  Permutation (insert_count e l) (e :: l).
Proof.
  induction l as [|h t IH]; simpl.
  - apply Permutation_refl.
  - destruct (snd h <=? snd e)%nat.
    + apply Permutation_refl.
    + eapply perm_trans; [apply perm_skip, IH | apply perm_swap].
Qed.

Lemma sort_counts_perm (l : list (string * nat)) :
  Permutation (sort_counts l) l.
Proof.
  induction l as [|e rest IH]; simpl.
  - apply perm_nil.
  - eapply perm_trans; [apply insert_count_perm | apply perm_skip, IH].
Qed.

Lemma sort_counts_sorted (l : list (string * nat)) :
  StronglySorted (fun a b => (snd b <= snd a)%nat) (sort_counts l).
Proof.
  induction l as [|e rest IH]; simpl; [constructor|].
  revert IH. generalize (sort_counts rest). intros s Hs.
  induction s as [|h t IHt]; simpl.
  - constructor; constructor.
  - apply StronglySorted_inv in Hs. destruct Hs as [Ht Hall].
    destruct (snd h <=? snd e)%nat eqn:Hc.
    + apply Nat.leb_le in Hc.
      constructor; [constructor; assumption|].
      constructor; [exact Hc|].
      eapply Forall_impl; [|exact Hall]. simpl. intros x Hx. lia.
    + apply Nat.leb_gt in Hc.
      constructor; [apply IHt; assumption|].
      eapply Permutation_Forall;
        [apply Permutation_sym, insert_count_perm|].
      constructor; [simpl; lia | exact Hall].
Qed.

Lemma count_value_record_type (v : string) (main : list Raw) :
  count_value v (map record_type main)
  = List.length (filter (fun r => cell_eqb (record_type r) v) main).
Proof.
  unfold count_value. induction main as [|r rest IH]; simpl; [reflexivity|].
  destruct (cell_eqb (record_type r) v); simpl; rewrite IH; reflexivity.
Qed.

Lemma indicator_sum (c : option string) (us : list string) :
  NoDup us ->
  list_sum (map (fun u => if cell_eqb c u then 1 else 0)%nat us)
  = match c with
    | Some v => if existsb (String.eqb v) us then 1%nat else 0%nat
    | None => 0%nat
    end.
Proof.
  induction 1 as [|u rest Hnotin Hnd IH]; simpl.
  - destruct c; reflexivity.
  - rewrite IH. destruct c as [v|]; simpl; [|reflexivity].
    destruct (String.eqb_spec v u) as [->|Hne]; simpl; [|reflexivity].
    destruct (existsb (String.eqb u) rest) eqn:Hex; [|reflexivity].
    apply existsb_exists in Hex. destruct Hex as (x & Hx & E).
    apply String.eqb_eq in E. subst x. contradiction.
Qed.

Lemma count_value_cons (u : string) (c : option string)
    (rest : list (option string)) :
  count_value u (c :: rest)
  = ((if cell_eqb c u then 1 else 0) + count_value u rest)%nat.
Proof.
  unfold count_value. simpl. destruct (cell_eqb c u); reflexivity.
Qed.

Lemma counts_add_up (us : list string) (column : list (option string)) :
  NoDup us ->
  (forall v, In (Some v) column -> In v us) ->
  list_sum (map (fun u => count_value u column) us)
  = List.length (filter (fun c => match c with Some _ => true | None => false end)
                        column).
Proof.
  intro Hnd. induction column as [|c rest IH]; intro Hcover.
  - clear Hnd Hcover. simpl.
    induction us as [|u t IHu]; simpl; [reflexivity | exact IHu].
  - assert (IHrest := IH (fun v Hv => Hcover v (or_intror Hv))).
    assert (Hsplit : forall l,
              list_sum (map (fun u => count_value u (c :: rest)) l)
              = (list_sum (map (fun u => if cell_eqb c u then 1 else 0) l)
                 + list_sum (map (fun u => count_value u rest) l))%nat).
    { induction l as [|u t IHl]; simpl; [reflexivity|].
      rewrite IHl, count_value_cons. lia. }
    rewrite Hsplit, IHrest, (indicator_sum c us Hnd).
    destruct c as [v|]; simpl; [|reflexivity].
    assert (Hex : existsb (String.eqb v) us = true).
    { apply existsb_exists. exists v.
      split; [apply Hcover; left; reflexivity | apply String.eqb_refl]. }
    rewrite Hex. reflexivity.
Qed.

(** X11. The Record Types table: a value is listed exactly when some
    record has it, once, with the number of records that have it; counts
    decrease down the table; the counts add up to the number of records
    that have a type; and the counts of "observation" and "event" are the
    lengths of the observation and event frames shown beside it. *)
Theorem record_counts_table `{Externals} (main : list Raw) :
  (forall v n,
     In (v, n) (record_counts main) <->
     n = count_value v (map record_type main) /\ (0 < n)%nat) /\
  NoDup (map fst (record_counts main)) /\
  StronglySorted (fun a b => (snd b <= snd a)%nat) (record_counts main) /\
  list_sum (map snd (record_counts main))
  = List.length (filter (fun r => match record_type r with
                                  | Some _ => true
                                  | None => false
                                  end) main) /\
  count_value "observation" (map record_type main)
  = List.length (process_observations main) /\
  count_value "event" (map record_type main)
  = List.length (process_events main).
Proof.
  set (column := map record_type main).
  set (entries := map (fun v => (v, count_value v column))
                      (unique_values column)).
  assert (Hperm : Permutation (record_counts main) entries)
    by apply sort_counts_perm.
  split.
  { intros v n. split.
    - intro Hin. apply (Permutation_in _ Hperm) in Hin.
      apply in_map_iff in Hin. destruct Hin as (v' & Heq & Hv').
      injection Heq as -> <-. split; [reflexivity|].
      apply count_value_positive, unique_values_In. assumption.
    - intros [-> Hpos].
      apply (Permutation_in _ (Permutation_sym Hperm)).
      apply in_map_iff. exists v. split; [reflexivity|].
      apply unique_values_In, count_value_positive. assumption. }
  split.
  { eapply Permutation_NoDup;
      [apply Permutation_map, Permutation_sym, Hperm|].
    unfold entries. rewrite map_map. simpl. rewrite map_id.
    apply unique_values_NoDup. }
  split; [apply sort_counts_sorted|].
  split.
  { rewrite (Permutation_list_sum
               (Permutation_map snd Hperm)).
    unfold entries. rewrite map_map. simpl.
    rewrite (counts_add_up (unique_values column) column).
    - unfold column. clear. induction main as [|r rest IH]; simpl;
        [reflexivity|].
      destruct (record_type r); simpl; rewrite IH; reflexivity.
    - apply unique_values_NoDup.
    - intros v Hv. apply unique_values_In. assumption. }
  unfold column. rewrite !count_value_record_type.
  unfold process_observations, process_events. rewrite !length_map.
  split; reflexivity.
Qed.

(** ** The events timeline of the Overview page *)

Lemma year_desc_leb_trans (a b c : option Z) :
  year_desc_leb a b = true -> year_desc_leb b c = true ->
  year_desc_leb a c = true.
Proof.
  destruct a, b, c; simpl; try discriminate; try reflexivity.
  rewrite !Z.leb_le. lia.
Qed.

Lemma year_desc_leb_total (a b : option Z) :
  year_desc_leb a b = false -> year_desc_leb b a = true.
Proof.
  destruct a, b; simpl; try discriminate; try reflexivity.
  rewrite Z.leb_gt, Z.leb_le. lia.
Qed.

Lemma insert_desc_perm (e : option string * option Z)
    (l : list (option string * option Z)) :
  Permutation (insert_desc e l) (e :: l).
Proof.
  induction l as [|h t IH]; simpl.
  - apply Permutation_refl.
  - destruct (year_desc_leb (snd e) (snd h)).
    + apply Permutation_refl.
    + eapply perm_trans; [apply perm_skip, IH | apply perm_swap].
Qed.

Lemma sort_values_year_desc_perm (l : list (option string * option Z)) :
  Permutation (sort_values_year_desc l) l.
Proof.
  induction l as [|e rest IH]; simpl.
  - apply perm_nil.
  - eapply perm_trans; [apply insert_desc_perm | apply perm_skip, IH].
Qed.

Lemma insert_desc_sorted (e : option string * option Z)
    (l : list (option string * option Z)) :
  StronglySorted (fun a b => year_desc_leb (snd a) (snd b) = true) l ->
  StronglySorted (fun a b => year_desc_leb (snd a) (snd b) = true)
                 (insert_desc e l).
Proof.
  induction l as [|h t IH]; simpl; intro Hs.
  - constructor; constructor.
  - apply StronglySorted_inv in Hs. destruct Hs as [Ht Hall].
    destruct (year_desc_leb (snd e) (snd h)) eqn:Hc.
    + constructor; [constructor; assumption|].
      constructor; [exact Hc|].
      eapply Forall_impl; [|exact Hall].
      intros x Hx. eapply year_desc_leb_trans; eassumption.
    + constructor; [apply IH; assumption|].
      eapply Permutation_Forall;
        [apply Permutation_sym, insert_desc_perm|].
      constructor; [apply year_desc_leb_total; exact Hc | exact Hall].
Qed.

Lemma sort_values_year_desc_sorted (l : list (option string * option Z)) :
  StronglySorted (fun a b => year_desc_leb (snd a) (snd b) = true)
                 (sort_values_year_desc l).
Proof.
  induction l as [|e rest IH]; simpl.
  - constructor.
  - apply insert_desc_sorted, IH.
Qed.

Lemma sorted_app_inv {A : Type} (R : A -> A -> Prop) (l1 l2 : list A) :
  StronglySorted R (l1 ++ l2) ->
  StronglySorted R l1 /\
  (forall x y, In x l1 -> In y l2 -> R x y).
Proof.
  induction l1 as [|a t IH]; simpl; intro Hs.
  - split; [constructor | contradiction].
  - apply StronglySorted_inv in Hs. destruct Hs as [Ht Hall].
    destruct (IH Ht) as [Hst Hcross]. rewrite Forall_forall in Hall.
    split.
    + constructor; [assumption|]. apply Forall_forall.
      intros x Hx. apply Hall. apply in_or_app. left. assumption.
    + intros x y [<-|Hx] Hy.
      * apply Hall. apply in_or_app. right. assumption.
      * apply Hcross; assumption.
Qed.

(** X12. The events timeline shows at most eight rows, eight when that
    many rows have both an indicator and a year; every row shown is a row
    of the events frame with both cells present; the rows run from the
    latest year down; and no row left out has a later year than a row
    shown. *)
Theorem events_summary_latest_eight
    (frame : list (option string * option Z)) :
  let shown := events_summary frame in
  List.length shown = Nat.min 8 (List.length (dropna frame)) /\
  (forall p, In p shown ->
     In p frame /\ exists i y, p = (Some i, Some y)) /\
  StronglySorted (fun a b => year_desc_leb (snd a) (snd b) = true) shown /\
  exists left_out,
    Permutation (dropna frame) (shown ++ left_out) /\
    forall i y i' y',
      In (i, Some y) shown -> In (i', Some y') left_out -> (y' <= y)%Z.
Proof.
  intro shown. unfold shown, events_summary.
  set (sorted := sort_values_year_desc (dropna frame)).
  assert (Hperm : Permutation sorted (dropna frame))
    by apply sort_values_year_desc_perm.
  assert (Hsplit : firstn 8 sorted ++ skipn 8 sorted = sorted)
    by apply firstn_skipn.
  assert (Hsorted : StronglySorted
            (fun a b => year_desc_leb (snd a) (snd b) = true)
            (firstn 8 sorted ++ skipn 8 sorted)).
  { rewrite Hsplit. apply sort_values_year_desc_sorted. }
  apply sorted_app_inv in Hsorted. destruct Hsorted as [Hfirst Hcross].
  split.
  { rewrite length_firstn, (Permutation_length Hperm). reflexivity. }
  split.
  { intros p Hp.
    assert (Hin : In p (dropna frame)).
    { apply (Permutation_in _ Hperm). rewrite <- Hsplit.
      apply in_or_app. left. assumption. }
    apply filter_In in Hin. destruct Hin as [Hin Hc]. split; [assumption|].
    destruct p as [[i|] [y|]]; try discriminate Hc. exists i, y. reflexivity. }
  split; [exact Hfirst|].
  exists (skipn 8 sorted). split.
  { rewrite Hsplit. apply Permutation_sym, Hperm. }
  intros i y i' y' Hs Hl.
  specialize (Hcross _ _ Hs Hl). simpl in Hcross.
  apply Z.leb_le in Hcross. exact Hcross.
Qed.

(** ** The loader *)

(** X13. Loading succeeds exactly when the three reads succeed and the
    date conversion raises on neither frame, and the session then holds
    the three tables as read, with the two frames derived from the main
    table.  The steps run in the order main file, forecast file, impact
    file, observation frame, event frame, and the exception raised is
    that of the first step that fails: a failure of the main file hides
    the state of everything after it. *)
Theorem load_session_outcome `{Externals} (fs : Files) :
  (data_loaded fs = true <->
   exists main forecast impact,
     main_csv fs = Ok main /\ forecast_csv fs = Ok forecast /\
     impact_csv fs = Ok impact /\
     year_column_error (filter is_observation main) = None /\
     year_column_error (filter is_event main) = None) /\
  (forall main forecast impact,
     main_csv fs = Ok main -> forecast_csv fs = Ok forecast ->
     impact_csv fs = Ok impact ->
     year_column_error (filter is_observation main) = None ->
     year_column_error (filter is_event main) = None ->
     load_session fs
     = Ok (mkSession main forecast impact
                     (process_observations main) (process_events main))) /\
  (forall e, main_csv fs = Raise e -> load_session fs = Raise e) /\
  (forall main e,
     main_csv fs = Ok main -> forecast_csv fs = Raise e ->
     load_session fs = Raise e) /\
  (forall main forecast e,
     main_csv fs = Ok main -> forecast_csv fs = Ok forecast ->
     impact_csv fs = Raise e ->
     load_session fs = Raise e) /\
  (forall main forecast impact e,
     main_csv fs = Ok main -> forecast_csv fs = Ok forecast ->
     impact_csv fs = Ok impact ->
     year_column_error (filter is_observation main) = Some e ->
     load_session fs = Raise e) /\
  (forall main forecast impact e,
     main_csv fs = Ok main -> forecast_csv fs = Ok forecast ->
     impact_csv fs = Ok impact ->
     year_column_error (filter is_observation main) = None ->
     year_column_error (filter is_event main) = Some e ->
     load_session fs = Raise e).
Proof.
  assert (Hok : forall main forecast impact,
            main_csv fs = Ok main -> forecast_csv fs = Ok forecast ->
            impact_csv fs = Ok impact ->
            load_session fs = process_tables (main, forecast, impact)).
  { intros main forecast impact Hm Hf Hi. unfold load_session.
    rewrite (proj2 (load_data_ok fs main forecast impact)); auto. }
  split.
  { unfold data_loaded. split.
    - intro Hloaded.
      destruct (load_session fs) as [s|e] eqn:Hs; [|discriminate].
      unfold load_session in Hs.
      destruct (load_data fs) as [[[main forecast] impact]|e] eqn:Hdata;
        [|discriminate].
      apply load_data_ok in Hdata. destruct Hdata as (Hm & Hf & Hi).
      apply process_tables_inv in Hs. destruct Hs as (_ & Ho & He).
      exists main, forecast, impact. auto.
    - intros (main & forecast & impact & Hm & Hf & Hi & Ho & He).
      rewrite (Hok _ _ _ Hm Hf Hi), (process_tables_ok _ _ _ Ho He).
      reflexivity. }
  split.
  { intros main forecast impact Hm Hf Hi Ho He.
    rewrite (Hok _ _ _ Hm Hf Hi). apply process_tables_ok; assumption. }
  split.
  { intros e Hm. unfold load_session, load_data. rewrite Hm. reflexivity. }
  split.
  { intros main e Hm Hf. unfold load_session, load_data.
    rewrite Hm, Hf. reflexivity. }
  split.
  { intros main forecast e Hm Hf Hi. unfold load_session, load_data.
    rewrite Hm, Hf, Hi. reflexivity. }
  split.
  { intros main forecast impact e Hm Hf Hi Ho.
    rewrite (Hok _ _ _ Hm Hf Hi).
    unfold process_tables, process_observations_run. rewrite Ho.
    reflexivity. }
  intros main forecast impact e Hm Hf Hi Ho He.
  rewrite (Hok _ _ _ Hm Hf Hi).
  unfold process_tables, process_observations_run, process_events_run.
  rewrite Ho, He. reflexivity.
Qed.

(** X14. The cache of the loader over the runs of one process.  The
    first run reads the files.  If the reads succeed, no later run reads
    them again: every later run shows what the tables of that first load
    give, whatever the files have become since; a run shows the data and
    no error box when the date conversion returns on those tables, and
    every run shows the error box of the conversion when it raises on
    them.  If a read fails, nothing is kept and the next run reads the
    files again. *)
Theorem cache_keeps_first_load `{Externals}
    (fs : Files) (c : Controls) (later : list (Files * Controls)) :
  (forall tables,
     load_data fs = Ok tables ->
     runs None ((fs, c) :: later)
     = script fs c
       :: map (fun step => script (files_of tables) (snd step)) later /\
     (forall s, process_tables tables = Ok s ->
        forall shown e, In shown (runs None ((fs, c) :: later)) ->
                        ~ In (st_error e) shown) /\
     (forall e, process_tables tables = Raise e ->
        forall shown, In shown (runs None ((fs, c) :: later)) ->
          exists c', shown
                     = [st_error e; sidebar; main_header (page c'); footer])) /\
  (forall e,
     load_data fs = Raise e ->
     runs None ((fs, c) :: later)
     = [st_error e; sidebar; main_header (page c); footer]
       :: runs None later).
Proof.
  split.
  - intros tables Hload.
    assert (Hfirst : script fs c = script (files_of tables) c).
    { rewrite script_files_of, script_render. unfold load_session.
      rewrite Hload. reflexivity. }
    assert (Hruns : runs None ((fs, c) :: later)
                    = script fs c
                      :: map (fun step => script (files_of tables) (snd step))
                             later).
    { rewrite runs_cons, (script_cached_miss_ok fs c tables Hload).
      cbn [fst snd]. rewrite runs_hit. reflexivity. }
    assert (Heach : forall shown,
              In shown (runs None ((fs, c) :: later)) ->
              exists c', shown = render (process_tables tables) c').
    { intros shown Hin. rewrite Hruns in Hin. destruct Hin as [<-|Hin].
      - exists c. rewrite Hfirst. apply script_files_of.
      - apply in_map_iff in Hin. destruct Hin as (step & <- & _).
        exists (snd step). apply script_files_of. }
    split; [exact Hruns|]. split.
    + intros s Hs shown e Hin. destruct (Heach shown Hin) as (c' & ->).
      rewrite Hs. apply render_ok_no_error.
    + intros e He shown Hin. destruct (Heach shown Hin) as (c' & ->).
      exists c'. rewrite He. reflexivity.
  - intros e Hload.
    rewrite runs_cons, (script_cached_miss_raise fs c e Hload). reflexivity.
Qed.

Lemma stale_tables_example :
  let c := mkControls Trends (2011, 2025)%Z ["ACCESS"; "USAGE"] in
  runs None [(example_files, c); (missing_main, c); (broken_impact, c)]
  = [script example_files c; script example_files c; script example_files c]
  /\
  runs None [(broken_impact, c); (example_files, c)]
  = [[st_error parse_error; sidebar; main_header Trends; footer];
     script example_files c]
  /\
  runs None [(zoned_files, c); (example_files, c)]
  = [[st_error (H := example_io) mixed_zones_error; sidebar;
      main_header Trends; footer];
     [st_error (H := example_io) mixed_zones_error; sidebar;
      main_header Trends; footer]].
Proof. repeat split. Qed.

(** ** The forecast charts *)

Lemma band_return_point {A : Type} (out back : list A) (i : nat) :
  List.length out = List.length back ->
  (i < List.length back)%nat ->
  nth_error (out ++ rev back) (2 * List.length back - 1 - i)
  = nth_error back i.
Proof.
  intros Hlen Hi.
  rewrite nth_error_app2 by lia.
  rewrite nth_error_rev.
  replace (2 * List.length back - 1 - i - List.length out <? List.length back)%nat
    with true by (symmetry; apply Nat.ltb_lt; lia).
  f_equal. lia.
Qed.

(** X15. The forecast figures.  With the Linear Trend model the figure
    is the historical trace and the trend trace, and the interval
    checkbox changes nothing; with the Event-Augmented model it is the
    historical and base traces, followed by the band exactly when the
    checkbox is set.  On a frame whose bound columns are as long as its
    year column, the band is a closed outline: as many ordinates as
    abscissas, twice the number of years; the abscissas read the same in
    both directions; the point at position [i] is year [i] on the upper
    bound, and the point at the same distance from the end is the same
    year on the lower bound. *)
Theorem forecast_figure_shape
    (historical : Trace) (fc : ForecastFrame)
    (Hupper : List.length (fc_ci_upper fc) = List.length (fc_year fc))
    (Hlower : List.length (fc_ci_lower fc) = List.length (fc_year fc)) :
  (forall show_ci,
     forecast_figure historical fc LinearTrendOnly show_ci
     = [historical; mkTrace "Linear Trend" (fc_year fc) (fc_trend fc)]) /\
  forecast_figure historical fc EventAugmented false
  = [historical; mkTrace "Base Scenario" (fc_year fc) (fc_base fc)] /\
  forecast_figure historical fc EventAugmented true
  = [historical; mkTrace "Base Scenario" (fc_year fc) (fc_base fc);
     ci_band fc] /\
  List.length (trace_x (ci_band fc)) = (2 * List.length (fc_year fc))%nat /\
  List.length (trace_y (ci_band fc)) = (2 * List.length (fc_year fc))%nat /\
  rev (trace_x (ci_band fc)) = trace_x (ci_band fc) /\
  (forall i, (i < List.length (fc_year fc))%nat ->
     nth_error (trace_x (ci_band fc)) i = nth_error (fc_year fc) i /\
     nth_error (trace_y (ci_band fc)) i = nth_error (fc_ci_upper fc) i /\
     nth_error (trace_x (ci_band fc)) (2 * List.length (fc_year fc) - 1 - i)
     = nth_error (fc_year fc) i /\
     nth_error (trace_y (ci_band fc)) (2 * List.length (fc_year fc) - 1 - i)
     = nth_error (fc_ci_lower fc) i).
Proof.
  split; [intros []; reflexivity|].
  split; [reflexivity|]. split; [reflexivity|].
  unfold ci_band. simpl trace_x. simpl trace_y.
  split; [rewrite length_app, length_rev; lia|].
  split; [rewrite length_app, length_rev; lia|].
  split; [rewrite rev_app_distr, rev_involutive; reflexivity|].
  intros i Hi.
  split; [apply nth_error_app1; assumption|].
  split; [apply nth_error_app1; lia|].
  split.
  - apply band_return_point; [reflexivity | assumption].
  - rewrite <- Hlower. apply band_return_point; lia.
Qed.

Lemma forecast_figure_shape_witness :
  List.length (fc_ci_upper acc_forecast) = List.length (fc_year acc_forecast) /\
  List.length (fc_ci_lower acc_forecast) = List.length (fc_year acc_forecast) /\
  fig_acc_fc LinearTrendOnly true = fig_acc_fc LinearTrendOnly false /\
  trace_x (ci_band acc_forecast)
  = [2024; 2025; 2026; 2027; 2027; 2026; 2025; 2024]%Z /\
  rev (trace_x (ci_band acc_forecast)) = trace_x (ci_band acc_forecast).
Proof.
  split; [reflexivity|]. split; [reflexivity|].
  split; [reflexivity|]. split; [reflexivity|].
  apply (forecast_figure_shape historical_acc acc_forecast eq_refl eq_refl).
Defined.

(** ** The scenario comparison *)

Lemma getitem_key {V : Type} (d : Dict V) (key : string) :
  In key (map fst d) -> getitem d key <> None.
Proof.
  induction d as [|[k v] rest IH]; simpl; [contradiction|].
  destruct (String.eqb_spec k key) as [->|Hne]; [discriminate|].
  intros [E|Hin]; [congruence | apply IH; assumption].
Qed.

Lemma scenario_traces_total (items : Dict Scenario) (palette : Dict string)
    (selected : string) :
  (forall k, In k (map fst items) -> getitem palette k <> None) ->
  exists traces,
    scenario_traces items palette selected = Some traces /\
    map sc_name traces = map fst items /\
    (forall t, In t traces ->
       sc_x t = [2024; 2025; 2026; 2027]%Z /\
       (exists data, In (sc_name t, data) items /\
                     sc_y t = [49%Q; s2025 data; s2026 data; s2027 data]) /\
       getitem palette (sc_name t) = Some (sc_color t) /\
       ((sc_name t = selected /\ sc_dash t = "solid" /\
         sc_marker_size t = 8%Z) \/
        (sc_name t <> selected /\ sc_dash t = "dot" /\
         sc_marker_size t = 6%Z))) /\
    map sc_name (filter is_solid traces)
    = filter (fun k => String.eqb k selected) (map fst items).
Proof.
  induction items as [|[name data] rest IH]; intro Hpal.
  - exists []. simpl. repeat split; contradiction.
  - destruct IH as (traces & Hrun & Hnames & Hall & Hsolid).
    { intros k Hk. apply Hpal. right. assumption. }
    simpl. destruct (getitem palette name) as [color|] eqn:Hc.
    2:{ exfalso. apply (Hpal name); [left; reflexivity | assumption]. }
    rewrite Hrun. eexists. split; [reflexivity|].
    split; [simpl; rewrite Hnames; reflexivity|].
    split.
    + intros t [<-|Ht]; simpl.
      * split; [reflexivity|].
        split; [exists data; split; [left|]; reflexivity|].
        split; [assumption|].
        destruct (String.eqb_spec name selected); [left | right]; auto.
      * destruct (Hall t Ht) as (Hx & (d & Hd & Hy) & Hcol & Hstyle).
        split; [assumption|].
        split; [exists d; split; [right|]; assumption|].
        split; assumption.
    + simpl. unfold is_solid at 1. simpl.
      destruct (String.eqb name selected); simpl; rewrite Hsolid; reflexivity.
Qed.

Lemma filter_one_key (keys : list string) (selected : string) :
  NoDup keys -> In selected keys ->
  filter (fun k => String.eqb k selected) keys = [selected].
Proof.
  induction 1 as [|k rest Hnotin Hnd IH]; [contradiction|].
  intro Hin. simpl. destruct (String.eqb_spec k selected) as [->|Hne].
  - f_equal. clear IH Hin Hnd.
    induction rest as [|x t IHt]; simpl; [reflexivity|].
    destruct (String.eqb_spec x selected) as [->|_].
    + exfalso. apply Hnotin. left. reflexivity.
    + apply IHt. intro Hx. apply Hnotin. right. assumption.
  - destruct Hin as [E|Hin]; [congruence | apply IH; assumption].
Qed.

(** X16. The comparison chart of the Projections page.  When every
    scenario name has a colour, the loop raises no KeyError and gives one
    trace per scenario, in dictionary order; each trace starts at 49 in
    2024 and runs through the scenario's three projections; a trace is
    solid with the large marker when it is the selected scenario's and
    dotted with the small one otherwise.  When the names are distinct and
    the selection is one of them, looking the selection up succeeds and
    exactly one trace, the selected one, is solid. *)
Theorem scenario_traces_selected
    (items : Dict Scenario) (palette : Dict string) (selected : string)
    (Hpalette : forall k, In k (map fst items) -> getitem palette k <> None)
    (Hdistinct : NoDup (map fst items))
    (Hselected : In selected (map fst items)) :
  getitem items selected <> None /\
  exists traces,
    scenario_traces items palette selected = Some traces /\
    map sc_name traces = map fst items /\
    (forall t, In t traces ->
       sc_x t = [2024; 2025; 2026; 2027]%Z /\
       (exists data, In (sc_name t, data) items /\
                     sc_y t = [49%Q; s2025 data; s2026 data; s2027 data]) /\
       getitem palette (sc_name t) = Some (sc_color t) /\
       ((sc_name t = selected /\ sc_dash t = "solid" /\
         sc_marker_size t = 8%Z) \/
        (sc_name t <> selected /\ sc_dash t = "dot" /\
         sc_marker_size t = 6%Z))) /\
    map sc_name (filter is_solid traces) = [selected].
Proof.
  split; [apply getitem_key; assumption|].
  destruct (scenario_traces_total items palette selected Hpalette)
    as (traces & Hrun & Hnames & Hall & Hsolid).
  exists traces. repeat split; try assumption.
  - apply Hall. assumption.
  - apply Hall. assumption.
  - apply Hall. assumption.
  - apply Hall. assumption.
  - rewrite Hsolid. apply filter_one_key; assumption.
Qed.

(** The dictionaries of the script, with the pessimistic scenario
    selected: the gauge bar is red. *)
Lemma scenario_traces_selected_witness :
  (forall k, In k (map fst scenarios) -> getitem colors k <> None) /\
  NoDup (map fst scenarios) /\
  In "Pessimistic" (map fst scenarios) /\
  map fst scenarios = scenario_options /\
  (exists traces,
     projections_view "Pessimistic"
     = Some (mkScenario 57.8 64.7 70.0
               "Economic headwinds, slower adoption, infrastructure delays",
             "#e74c3c", traces) /\
     map sc_name (filter is_solid traces) = ["Pessimistic"]) /\
  getitem scenarios "Pessimistic" <> None.
Proof.
  assert (Hpalette : forall k, In k (map fst scenarios) ->
                               getitem colors k <> None).
  { intros k [<-|[<-|[<-|[]]]]; discriminate. }
  assert (Hdistinct : NoDup (map fst scenarios)).
  { simpl. repeat (constructor; [simpl; intuition discriminate|]).
    constructor. }
  assert (Hselected : In "Pessimistic" (map fst scenarios))
    by (right; right; left; reflexivity).
  split; [exact Hpalette|]. split; [exact Hdistinct|].
  split; [exact Hselected|]. split; [reflexivity|].
  split; [eexists; split; reflexivity|].
  apply (scenario_traces_selected scenarios colors "Pessimistic"
           Hpalette Hdistinct Hselected).
Defined.

(** ** What the trend chart can show *)

(** X17. Every point of the trend chart belongs to the selection: the
    pillar of each row of the aggregate is one of the selected pillars and
    its year lies within the selected range, bounds included; and some
    retained row of the requested unit carries that indicator, year and
    pillar. *)
Theorem filterAndAggregate_within_selection `{Externals}
    (observations : list Row) (pillars : list string)
    (range : Z * Z) (u : string) :
  forall i y p m,
    In ((i, y, p), m) (filterAndAggregate observations pillars range u) ->
    In p pillars /\ (fst range <= y <= snd range)%Z /\
    exists r,
      In r observations /\
      indicator_code (raw r) = Some i /\ year r = Some y /\
      pillar (raw r) = Some p /\ unit (raw r) = Some u.
Proof.
  intros i y p m Hin. unfold filterAndAggregate in Hin.
  apply (in_map fst) in Hin. rewrite trend_data_keys in Hin. simpl in Hin.
  apply group_keys_In in Hin. destruct Hin as (r & Hr & Hk).
  apply filter_In in Hr. destruct Hr as (Hobs & Hmask).
  apply trend_mask_spec in Hmask.
  destruct Hmask as ((p' & Hp' & Hpin) & (y' & Hy' & Hb) & Hu).
  unfold group_key in Hk. rewrite Hp', Hy' in Hk.
  destruct (indicator_code (raw r)) as [i'|] eqn:Hi; [|discriminate].
  injection Hk as -> -> ->.
  split; [assumption|]. split; [assumption|].
  exists r. auto.
Qed.

Lemma filterAndAggregate_within_selection_witness :
  In (("ACC_OWNERSHIP", 2021%Z, "ACCESS"), Some 46%Q)
     (filterAndAggregate (H := example_io) ownership_table ["ACCESS"]
                        (2014, 2021)%Z "%") /\
  In "ACCESS" ["ACCESS"] /\
  (fst (2014, 2021) <= 2021 <= snd (2014, 2021))%Z.
Proof.
  assert (Hin : In (("ACC_OWNERSHIP", 2021%Z, "ACCESS"), Some 46%Q)
                   (filterAndAggregate (H := example_io) ownership_table
                                       ["ACCESS"] (2014, 2021)%Z "%"))
    by (right; right; left; reflexivity).
  split; [exact Hin|].
  destruct (filterAndAggregate_within_selection (H := example_io)
              ownership_table ["ACCESS"] (2014, 2021)%Z "%" _ _ _ _ Hin)
    as (Hp & Hy & _).
  split; assumption.
Defined.
